(** * WipsherGUI: a shallow embedding of [main.py] and its properties

    The development follows the layout of the program:

    - [Py]          Python values the program relies on: exceptions and
                    results of fallible calls, [str.lower], [os.path.splitext],
                    [os.path.join] (POSIX flavour), [round(x, 2)];
    - [Recommend]   [check_recommended_model];
    - [Normalizer]  [convert_file_if_needed];
    - [ModelCache]  class [ModelManager] over a file system of marker files;
    - [Jobs]        [DownloaderThread.run], and [TranscriptionThread.run]
                    as a machine that [TranscriptionThread.interrupt] can
                    interleave with;
    - [Gui]         the part of [MainWindow] that drives the jobs: the two
                    combo boxes, the download slots and the stall monitor.

    Conventions.  Python [float]s that the program compares with constants
    (gigabytes, seconds) are exact rationals ([Q]); a Python [str] is a
    Rocq [string] whose characters are code points below 256; an external
    call that may raise is given by its result, an [outcome]. *)

From Stdlib Require Import ZArith QArith String Ascii List Bool Lia.
From stdpp Require Import base gmap strings list pretty.
Import ListNotations.

Open Scope string_scope.
Open Scope list_scope.

(* ===================================================================== *)
(** ** Python preliminaries *)
(* ===================================================================== *)

Module Py.

(** Exceptions.  [FileNotFoundError] is singled out because
    [MainWindow.choose_file] catches it by class; every other subclass
    of [Exception] is an [Exception] carrying what [str(e)] returns. *)
Inductive exn : Type :=
| FileNotFoundError (msg : string)
| Exception (msg : string).

Definition str (e : exn) : string :=
  match e with
  | FileNotFoundError msg => msg
  | Exception msg => msg
  end.

(** Result of a call that either returns or raises. *)
Inductive outcome (A : Type) : Type :=
| Return (a : A)
| Raise (e : exn).
Arguments Return {A} a.
Arguments Raise {A} e.

#[global] Instance outcome_ret : MRet outcome := fun A a => Return a.
#[global] Instance outcome_bind : MBind outcome := fun A B f m =>
  match m with
  | Return a => f a
  | Raise e => Raise e
  end.

Definition is_return {A} (o : outcome A) : bool :=
  match o with Return _ => true | Raise _ => false end.

(** [str.lower] on code points below 256: the ASCII capitals and the
    Latin-1 capitals (all of 0xC0..0xDE but the multiplication sign
    0xD7) move up by 32. *)
Definition lower_char (c : ascii) : ascii :=
  let n := N_of_ascii c in
  if ((65 <=? n) && (n <=? 90))%N then ascii_of_N (n + 32)
  else if ((192 <=? n) && (n <=? 222) && negb (n =? 215))%N
       then ascii_of_N (n + 32)
  else c.

Fixpoint lower (s : string) : string :=
  match s with
  | EmptyString => EmptyString
  | String c r => String (lower_char c) (lower r)
  end.

(** [p.rfind(c)]: index of the last occurrence, [-1] when there is none. *)
Fixpoint rfind_from (c : ascii) (p : list ascii) (i last : Z) : Z :=
  match p with
  | [] => last
  | x :: r => rfind_from c r (i + 1) (if Ascii.eqb x c then i else last)
  end.

Definition rfind (c : ascii) (p : list ascii) : Z := rfind_from c p 0 (-1).

(** The loop of [genericpath._splitext] that skips the leading dots of
    the file name: [true] as soon as a character other than [extsep] is
    met before [dotIndex]. *)
Fixpoint has_non_dot (extsep : ascii) (name : list ascii) : bool :=
  match name with
  | [] => false
  | c :: r => if negb (Ascii.eqb c extsep) then true else has_non_dot extsep r
  end.

Definition _splitext (p : string) (sep : ascii) (altsep : option ascii)
    (extsep : ascii) : string * string :=
  let l := list_ascii_of_string p in
  let sepIndex := rfind sep l in
  let sepIndex :=
    match altsep with
    | Some a => Z.max sepIndex (rfind a l)
    | None => sepIndex
    end in
  let dotIndex := rfind extsep l in
  if (sepIndex <? dotIndex)%Z then
    let filenameIndex := Z.to_nat (sepIndex + 1) in
    let name := firstn (Z.to_nat dotIndex - filenameIndex)
                       (skipn filenameIndex l) in
    if has_non_dot extsep name
    then (string_of_list_ascii (firstn (Z.to_nat dotIndex) l),
          string_of_list_ascii (skipn (Z.to_nat dotIndex) l))
    else (p, "")
  else (p, "").

(** [os.path.splitext] of [posixpath]. *)
Definition splitext (p : string) : string * string :=
  _splitext p "/"%char None "."%char.

Definition startswith_slash (s : string) : bool :=
  match s with
  | String c _ => Ascii.eqb c "/"%char
  | EmptyString => false
  end.

Fixpoint endswith_slash (s : string) : bool :=
  match s with
  | EmptyString => false
  | String c EmptyString => Ascii.eqb c "/"%char
  | String _ r => endswith_slash r
  end.

(** [os.path.join a b] of [posixpath], two components. *)
Definition join (a b : string) : string :=
  if startswith_slash b then b
  else if String.eqb a "" || endswith_slash a then a +:+ b
  else a +:+ "/" +:+ b.

(** Rounding of the quotient [n / d] ([0 < d]) to the nearest integer,
    ties to the even one. *)
Definition round_half_even (n d : Z) : Z :=
  let q := (n / d)%Z in
  let r := (n mod d)%Z in
  if (2 * r <? d)%Z then q
  else if (d <? 2 * r)%Z then (q + 1)%Z
  else if Z.even q then q else (q + 1)%Z.

(** [round(x, 2)]: the nearest multiple of one hundredth. *)
Definition round2 (x : Q) : Q :=
  round_half_even (Qnum x * 100) (Zpos (Qden x)) # 100.

(** [1024**3] *)
Definition GiB : Q := inject_Z (1024 ^ 3).

End Py.

Import Py.

(* ===================================================================== *)
(** ** [check_recommended_model] *)
(* ===================================================================== *)

Module Recommend.

(** What the probing calls of [psutil] and [torch.cuda] answer, one
    field per call site of the function. *)
Record probes : Type := {
  cpu_count : outcome (option Z);      (* psutil.cpu_count(logical=False) *)
  ram_total : outcome Z;               (* psutil.virtual_memory().total *)
  cuda_is_available : outcome bool;    (* torch.cuda.is_available() *)
  cuda_device_name : outcome string;   (* torch.cuda.get_device_name(0) *)
  cuda_total_memory : outcome Z;       (* get_device_properties(0).total_memory *)
  ram_available : outcome Z            (* psutil.virtual_memory().available *)
}.

(** The dictionary [specs]. *)
Record Specs : Type := {
  cpu : option Z;
  ram : Q;
  gpu : option string;
  vram : option Q
}.

Definition set_gpu (s : Specs) (g : string) : Specs :=
  {| cpu := cpu s; ram := ram s; gpu := Some g; vram := vram s |}.

Definition set_vram (s : Specs) (v : Q) : Specs :=
  {| cpu := cpu s; ram := ram s; gpu := gpu s; vram := Some v |}.

(** Body of the [try] block: the dictionary is updated in place, so the
    updates made before an exception stay. *)
Definition guarded (p : probes) (specs : Specs) : outcome string * Specs :=
  match cuda_is_available p with
  | Raise e => (Raise e, specs)
  | Return true =>
      match cuda_device_name p with
      | Raise e => (Raise e, specs)
      | Return name =>
          let specs := set_gpu specs name in
          match cuda_total_memory p with
          | Raise e => (Raise e, specs)
          | Return total_memory =>
              let v := round2 (inject_Z total_memory / GiB) in
              let specs := set_vram specs v in
              (Return (if Qle_bool 8 v then "large"
                       else if Qle_bool 6 v then "medium"
                       else if Qle_bool 4 v then "small"
                       else "base"),
               specs)
          end
      end
  | Return false =>
      match ram_available p with
      | Raise e => (Raise e, specs)
      | Return available =>
          let ram_avail := (inject_Z available / GiB)%Q in
          (Return (if Qle_bool 8 ram_avail then "small" else "base"), specs)
      end
  end.

Definition check_recommended_model (p : probes) : outcome (string * Specs) :=
  c ← cpu_count p;
  total ← ram_total p;
  let specs := {| cpu := c; ram := round2 (inject_Z total / GiB);
                  gpu := None; vram := None |} in
  let recommended := "tiny" in
  let '(r, specs) := guarded p specs in
  let recommended :=
    match r with
    | Return m => m
    | Raise _ => "tiny"
    end in
  mret (recommended, specs).

(** The rows of the table on a rounded amount of video memory. *)
Definition gpu_row (v : Q) (recommended : string) : Prop :=
  ((8 <= v)%Q -> recommended = "large") /\
  ((6 <= v)%Q -> (v < 8)%Q -> recommended = "medium") /\
  ((4 <= v)%Q -> (v < 6)%Q -> recommended = "small") /\
  ((v < 4)%Q -> recommended = "base").

(** The probes made inside the [try] block, in the order the code
    reaches them: [failed_inside p] when one that is reached raises. *)
Definition failed_inside (p : probes) : Prop :=
  match cuda_is_available p with
  | Raise _ => True
  | Return true =>
      match cuda_device_name p with
      | Raise _ => True
      | Return _ => is_return (cuda_total_memory p) = false
      end
  | Return false => is_return (ram_available p) = false
  end.

(** A machine without GPU and with 16 GB of memory, 12 of them free. *)
Definition laptop : probes :=
  {| cpu_count := Return (Some 4%Z);
     ram_total := Return (16 * 1024 ^ 3)%Z;
     cuda_is_available := Return false;
     cuda_device_name := Raise (Exception "no CUDA device");
     cuda_total_memory := Raise (Exception "no CUDA device");
     ram_available := Return (12 * 1024 ^ 3)%Z |}.

End Recommend.

(* ===================================================================== *)
(** ** [convert_file_if_needed] *)
(* ===================================================================== *)

Module Normalizer.

Definition ffmpeg_missing : string :=
  "ffmpeg non è stato trovato nel PATH. Assicurati che sia installato e configurato correttamente.".

Definition audio_ext : list string := [".mp3"; ".wav"; ".m4a"; ".flac"].
Definition video_ext : list string := [".mp4"; ".avi"; ".mov"; ".mkv"].

Section WithEnvironment.

(** [shutil.which] and the exit status of the child process run by
    [subprocess.run(command, check=True, ...)]. *)
Variable which : string -> option string.
Variable subprocess_run : list string -> Z.

(** [None] is Python's [None]; [Some p] a path. *)
Definition convert_file_if_needed (file_path : string)
    : outcome (option string) :=
  match which "ffmpeg" with
  | None => Raise (FileNotFoundError ffmpeg_missing)
  | Some _ =>
      let ext := lower (snd (splitext file_path)) in
      if decide (ext ∈ audio_ext) then Return (Some file_path)
      else if decide (ext ∈ video_ext) then
        let new_file := fst (splitext file_path) +:+ ".wav" in
        let command := ["ffmpeg"; "-y"; "-i"; file_path; new_file] in
        if (subprocess_run command =? 0)%Z
        then Return (Some new_file)      (* no CalledProcessError *)
        else Return None                 (* except CalledProcessError *)
      else Return None
  end.

End WithEnvironment.

End Normalizer.

(* ===================================================================== *)
(** ** [ModelManager]: the model cache *)
(* ===================================================================== *)

Module ModelCache.

Definition ALL_MODELS : list string :=
  ["tiny"; "base"; "small"; "medium"; "large"].

(** A model object returned by [whisper.load_model]: the weights it was
    built from, the device it lives on, and the identity of the object. *)
Record Model : Type := {
  weights : string;
  device : string;
  ident : nat
}.

#[global] Instance Model_eq_dec : EqDecision Model.
Proof. solve_decision. Defined.

(** Signals of the two worker threads. *)
Inductive signal : Type :=
| progressUpdated (value : Z)
| downloadFinished (success : bool) (error : string)
| transcriptionFinished (text : string)
| errorOccurred (error : string).

(** What a worker does that can be observed from outside: the signals it
    emits and its calls into [torch] and [whisper]. *)
Inductive event : Type :=
| Emit (s : signal)
| CudaIsAvailable
| WhisperLoadModel (name device : string)
| ModelTranscribe (m : Model) (file_path : string) (fp16 : bool).

(** Answers of [torch] and [whisper] during one job.  A successful
    [whisper.load_model] answers the identity of the new object. *)
Record Env : Type := {
  cuda_is_available : outcome bool;
  whisper_load_model : string -> string -> outcome nat;
  transcribe : Model -> string -> bool -> outcome (gmap string string)
}.

(** The regular files of the disk: path to content. *)
Abbreviation files := (gmap string string).

Record ModelManager : Type := {
  cache_folder : string;
  loaded_model : option Model;
  current_model_name : option string
}.

(** [__init__]; [os.makedirs] creates a directory, no regular file. *)
Definition init : ModelManager :=
  {| cache_folder := "models"; loaded_model := None;
     current_model_name := None |}.

Definition model_path (self : ModelManager) (model_name : string) : string :=
  join (cache_folder self) (model_name +:+ ".model").

(** The disk is keyed by the path as written.  That stands for the file
    system as far as the paths are distinct files exactly when they are
    distinct strings, which is so for the names without path syntax that
    the window passes, those of [ALL_MODELS]: the facts below about
    markers are stated for these. *)
Definition is_model_downloaded (self : ModelManager) (model_name : string)
    (disk : files) : bool :=
  bool_decide (is_Some (disk !! model_path self model_name)).

(** [open(model_path, "w")] creates or truncates, [f.write] fills. *)
Definition mark_model_as_downloaded (self : ModelManager)
    (model_name : string) (disk : files) : files :=
  <[model_path self model_name := "downloaded"]> disk.

Definition call (progress_callback : option (Z -> list event)) (p : Z)
    : list event :=
  match progress_callback with
  | Some f => f p
  | None => []
  end.

(** The test of the fast path: [self.loaded_model is not None and
    self.current_model_name == model_name]. *)
Definition cached (self : ModelManager) (model_name : string)
    : option Model :=
  match loaded_model self with
  | Some m =>
      if decide (current_model_name self = Some model_name)
      then Some m else None
  | None => None
  end.

(** [load_model]: the events it causes, what it returns or raises, and
    the manager afterwards. *)
Definition load_model (env : Env) (self : ModelManager) (model_name : string)
    (progress_callback : option (Z -> list event))
    : list event * outcome Model * ModelManager :=
  match cached self model_name with
  | Some m => ([], Return m, self)
  | None =>
      let t := call progress_callback 0 in
      match cuda_is_available env with
      | Raise e => (t ++ [CudaIsAvailable], Raise e, self)
      | Return cuda =>
          let device := if (cuda : bool) then "cuda" else "cpu" in
          let t := t ++ [CudaIsAvailable; WhisperLoadModel model_name device] in
          match whisper_load_model env model_name device with
          | Raise e => (t, Raise e, self)
          | Return i =>
              let model := {| weights := model_name; device := device;
                              ident := i |} in
              (t ++ call progress_callback 100, Return model,
               {| cache_folder := cache_folder self;
                  loaded_model := Some model;
                  current_model_name := Some model_name |})
          end
      end
  end.

(** A succession of [load_model] calls on the one manager, each with
    the answers of [torch] and [whisper] at that time and each run to
    its end before the next starts: what each call returned or raised,
    and the manager at the end.  What holds inside a call is the matter
    of [load_step] below. *)
Fixpoint load_seq (calls : list (Env * string)) (self : ModelManager)
    : list (outcome Model) * ModelManager :=
  match calls with
  | [] => ([], self)
  | (env, model_name) :: rest =>
      let '(_, r, self) := load_model env self model_name None in
      let '(rs, self) := load_seq rest self in
      (r :: rs, self)
  end.

(** [load_model] one statement at a time, for what holds inside a
    call.  A point names the statement about to be executed and carries
    the local variables bound so far. *)
Inductive load_point : Type :=
| TestCache                       (* line 121 *)
| CallbackStart                   (* lines 124-125 *)
| ProbeDevice                     (* line 126 *)
| CallWhisper (device : string)   (* line 128 *)
| StoreModel (model : Model)      (* line 129 *)
| RecordName (model : Model)      (* line 130 *)
| CallbackEnd (model : Model)     (* lines 131-132 *)
| Exited (r : outcome Model).     (* lines 123 and 134, or an exception *)

Record loading : Type := {
  manager_now : ModelManager;
  at_point : load_point;
  happened : list event
}.

Definition load_begin (self : ModelManager) : loading :=
  {| manager_now := self; at_point := TestCache; happened := [] |}.

Definition load_step (env : Env) (model_name : string)
    (progress_callback : option (Z -> list event)) (s : loading) : loading :=
  let self := manager_now s in
  let at_ p := {| manager_now := self; at_point := p;
                  happened := happened s |} in
  let after t p := {| manager_now := self; at_point := p;
                      happened := happened s ++ t |} in
  match at_point s with
  | TestCache =>
      match cached self model_name with
      | Some m => at_ (Exited (Return m))
      | None => at_ CallbackStart
      end
  | CallbackStart => after (call progress_callback 0) ProbeDevice
  | ProbeDevice =>
      match cuda_is_available env with
      | Raise e => after [CudaIsAvailable] (Exited (Raise e))
      | Return cuda =>
          after [CudaIsAvailable]
                (CallWhisper (if (cuda : bool) then "cuda" else "cpu"))
      end
  | CallWhisper device =>
      match whisper_load_model env model_name device with
      | Raise e => after [WhisperLoadModel model_name device] (Exited (Raise e))
      | Return i =>
          after [WhisperLoadModel model_name device]
                (StoreModel {| weights := model_name; device := device;
                               ident := i |})
      end
  | StoreModel model =>
      {| manager_now := {| cache_folder := cache_folder self;
                           loaded_model := Some model;
                           current_model_name := current_model_name self |};
         at_point := RecordName model;
         happened := happened s |}
  | RecordName model =>
      {| manager_now := {| cache_folder := cache_folder self;
                           loaded_model := loaded_model self;
                           current_model_name := Some model_name |};
         at_point := CallbackEnd model;
         happened := happened s |}
  | CallbackEnd model =>
      after (call progress_callback 100) (Exited (Return model))
  | Exited r => s
  end.

(** The longest path through [load_model] has seven statements. *)
Definition load_whole (env : Env) (model_name : string)
    (progress_callback : option (Z -> list event)) (self : ModelManager)
    : loading :=
  Nat.iter 7 (load_step env model_name progress_callback) (load_begin self).

(** The model objects that exist at a point of a call: the one the slot
    refers to and, once [whisper.load_model] has returned and until line
    129 has overwritten the slot, the new one, which only the local
    variable [model] refers to.  After line 129 the local variable and
    the slot refer to the same object, and the object the slot held
    before has no reference left in the manager or in the call.
    References kept elsewhere, as by a transcription at work on the
    model it was given, are not counted. *)
Definition alive (s : loading) : list Model :=
  match at_point s with
  | StoreModel model => option_list (loaded_model (manager_now s)) ++ [model]
  | _ => option_list (loaded_model (manager_now s))
  end.

(** The slot and the recorded name go together. *)
Definition coherent (self : ModelManager) : Prop :=
  current_model_name self = weights <$> loaded_model self.

(** How a point of a call of [load_model] for [model_name], begun on
    [self], stands to [self]. *)
Definition load_invariant (self : ModelManager) (model_name : string)
    (s : loading) : Prop :=
  match at_point s with
  | TestCache => manager_now s = self
  | CallbackStart | ProbeDevice | CallWhisper _ =>
      manager_now s = self /\ cached self model_name = None
  | StoreModel model =>
      manager_now s = self /\ cached self model_name = None /\
      weights model = model_name
  | RecordName model =>
      loaded_model (manager_now s) = Some model /\
      current_model_name (manager_now s) = current_model_name self /\
      cached self model_name = None /\ weights model = model_name
  | CallbackEnd model =>
      loaded_model (manager_now s) = Some model /\
      current_model_name (manager_now s) = Some model_name /\
      weights model = model_name
  | Exited _ => coherent (manager_now s)
  end.

Definition successes (rs : list (outcome Model)) : list Model :=
  omap (fun r => match r with Return m => Some m | Raise _ => None end) rs.

(** An environment in which every call succeeds, on a CPU. *)
Definition healthy (i : nat) : Env :=
  {| cuda_is_available := Return false;
     whisper_load_model := fun _ _ => Return i;
     transcribe := fun _ _ _ => Return {["text" := "ciao"]} |}.

(** One in which the weights cannot be fetched. *)
Definition offline : Env :=
  {| cuda_is_available := Return false;
     whisper_load_model := fun _ _ => Raise (Exception "download failed");
     transcribe := fun _ _ _ => Return {["text" := "ciao"]} |}.

End ModelCache.

(* ===================================================================== *)
(** ** The worker threads *)
(* ===================================================================== *)

Module Jobs.

Import ModelCache.

(** [lambda p: self.progressUpdated.emit(p)] *)
Definition forward (p : Z) : list event := [Emit (progressUpdated p)].

Definition interrupted_msg : string := "Trascrizione interrotta.".

(** *** [DownloaderThread] *)

Module DownloaderThread.

Record t : Type := {
  model_name : string;
  _is_interrupted : bool
}.

Definition __init__ (model_name : string) : t :=
  {| model_name := model_name; _is_interrupted := false |}.

(** [run]: nothing reads the thread while it runs, so the method is one
    function from the manager to the events and the manager afterwards. *)
Definition run (env : Env) (self : t) (model_manager : ModelManager)
    : list event * ModelManager :=
  let t0 := [Emit (progressUpdated 0)] in
  let '(t1, r, model_manager) :=
    load_model env model_manager (model_name self) (Some forward) in
  match r with
  | Return _ => (t0 ++ t1 ++ [Emit (downloadFinished true "")], model_manager)
  | Raise e =>
      (t0 ++ t1 ++ [Emit (downloadFinished false (str e))], model_manager)
  end.

End DownloaderThread.

(** *** [TranscriptionThread] *)

Record TranscriptionThread : Type := {
  model_name : string;
  file_path : string;
  _is_interrupted : bool
}.

Definition new_transcription (model_name file_path : string)
    : TranscriptionThread :=
  {| model_name := model_name; file_path := file_path;
     _is_interrupted := false |}.

(** [interrupt] is called from the GUI thread while [run] executes on
    the worker, so [run] is a machine that the GUI thread can interleave
    with.  A [point] is the statement [run] executes next, with the
    local variables it has bound. *)
Inductive point : Type :=
| EmitStart                                  (* line 180 *)
| Load                                       (* line 181 *)
| EmitModelReady (model : Model)             (* line 183 *)
| CheckInterrupted (model : Model)           (* line 184 *)
| EmitInterrupted                            (* lines 185-187 *)
| EmitPreTranscribe (model : Model)          (* line 189 *)
| ProbeFp16 (model : Model)                  (* line 190 *)
| CallTranscribe (model : Model) (use_fp16 : bool)   (* line 192, call *)
| InTranscribe (model : Model) (use_fp16 : bool)     (* line 192, inside *)
| EmitDone (final_text : string)             (* line 194 *)
| EmitFinished (final_text : string)         (* line 196 *)
| Handler (e : exn)                          (* lines 197-199 *)
| Returned.

Record running : Type := {
  self : TranscriptionThread;
  pc : point;
  model_manager : ModelManager;
  trace : list event
}.

Definition start (t : TranscriptionThread) (m : ModelManager) : running :=
  {| self := t; pc := EmitStart; model_manager := m; trace := [] |}.

Definition goto (r : running) (p : point) (t : list event) : running :=
  {| self := self r; pc := p; model_manager := model_manager r;
     trace := trace r ++ t |}.

(** One statement of [TranscriptionThread.run]. *)
Definition step (env : Env) (r : running) : running :=
  match pc r with
  | EmitStart => goto r Load [Emit (progressUpdated 0)]
  | Load =>
      let '(t, res, m) :=
        load_model env (model_manager r) (model_name (self r))
                   (Some forward) in
      {| self := self r;
         pc := match res with
               | Return model => EmitModelReady model
               | Raise e => Handler e
               end;
         model_manager := m;
         trace := trace r ++ t |}
  | EmitModelReady model =>
      goto r (CheckInterrupted model) [Emit (progressUpdated 100)]
  | CheckInterrupted model =>
      if _is_interrupted (self r) then goto r EmitInterrupted []
      else goto r (EmitPreTranscribe model) []
  | EmitInterrupted => goto r Returned [Emit (errorOccurred interrupted_msg)]
  | EmitPreTranscribe model =>
      goto r (ProbeFp16 model) [Emit (progressUpdated 50)]
  | ProbeFp16 model =>
      match cuda_is_available env with
      | Return use_fp16 => goto r (CallTranscribe model use_fp16) [CudaIsAvailable]
      | Raise e => goto r (Handler e) [CudaIsAvailable]
      end
  | CallTranscribe model use_fp16 =>
      goto r (InTranscribe model use_fp16)
           [ModelTranscribe model (file_path (self r)) use_fp16]
  | InTranscribe model use_fp16 =>
      match transcribe env model (file_path (self r)) use_fp16 with
      | Return result =>
          (* final_text = result.get("text", "") *)
          goto r (EmitDone (default "" (result !! "text"))) []
      | Raise e => goto r (Handler e) []
      end
  | EmitDone final_text =>
      goto r (EmitFinished final_text) [Emit (progressUpdated 100)]
  | EmitFinished final_text =>
      goto r Returned [Emit (transcriptionFinished final_text)]
  | Handler e => goto r Returned [Emit (errorOccurred (str e))]
  | Returned => r
  end.

(** [TranscriptionThread.interrupt], called on the thread object while
    it runs. *)
Definition interrupt (r : running) : running :=
  {| self := {| model_name := model_name (self r);
                file_path := file_path (self r);
                _is_interrupted := true |};
     pc := pc r; model_manager := model_manager r; trace := trace r |}.

(** An interleaving of the worker with the GUI thread. *)
Inductive move : Type := Step | Interrupt.

Definition play (env : Env) (r : running) (m : move) : running :=
  match m with
  | Step => step env r
  | Interrupt => interrupt r
  end.

Definition exec (env : Env) (sched : list move) (r : running) : running :=
  fold_left (play env) sched r.

(** No path through [run] has more than ten statements. *)
Definition finish (env : Env) (r : running) : running :=
  Nat.iter 10 (step env) r.

(** A whole run of the thread under a schedule: the worker is given the
    moves of the schedule, then runs to its end undisturbed. *)
Definition transcription_run (env : Env) (sched : list move)
    (t : TranscriptionThread) (m : ModelManager) : running :=
  finish env (exec env sched (start t m)).

(** [run] as one function, for a flag that reads [flag] at line 184. *)
Definition run_reading (flag : bool) (env : Env) (t : TranscriptionThread)
    (m : ModelManager) : list event * ModelManager :=
  let t0 := [Emit (progressUpdated 0)] in
  let '(t1, res, m) := load_model env m (model_name t) (Some forward) in
  match res with
  | Raise e => (t0 ++ t1 ++ [Emit (errorOccurred (str e))], m)
  | Return model =>
      let t2 := t0 ++ t1 ++ [Emit (progressUpdated 100)] in
      if flag then (t2 ++ [Emit (errorOccurred interrupted_msg)], m)
      else
        let t3 := t2 ++ [Emit (progressUpdated 50); CudaIsAvailable] in
        match cuda_is_available env with
        | Raise e => (t3 ++ [Emit (errorOccurred (str e))], m)
        | Return use_fp16 =>
            let t4 := t3 ++ [ModelTranscribe model (file_path t) use_fp16] in
            match transcribe env model (file_path t) use_fp16 with
            | Raise e => (t4 ++ [Emit (errorOccurred (str e))], m)
            | Return result =>
                (t4 ++ [Emit (progressUpdated 100);
                        Emit (transcriptionFinished
                                (default "" (result !! "text")))], m)
            end
        end
  end.

(** Trace projections. *)
Definition signals (t : list event) : list signal :=
  omap (fun e => match e with Emit s => Some s | _ => None end) t.

Definition is_progress (s : signal) : bool :=
  match s with progressUpdated _ => true | _ => false end.

Definition is_terminal (s : signal) : bool := negb (is_progress s).

Definition percentages (t : list signal) : list Z :=
  omap (fun s => match s with progressUpdated p => Some p | _ => None end) t.

Definition is_recognizer_call (e : event) : bool :=
  match e with ModelTranscribe _ _ _ => true | _ => false end.

Fixpoint nondecreasing (l : list Z) : bool :=
  match l with
  | x :: ((y :: _) as r) => (x <=? y)%Z && nondecreasing r
  | _ => true
  end.

Definition in_range (p : Z) : bool := (0 <=? p)%Z && (p <=? 100)%Z.

Definition no_recognizer_call (t : list event) : bool :=
  forallb (fun e => negb (is_recognizer_call e)) t.

(** The signals of a transcription, read off lines 177-199.  [flag] is
    what line 184 reads.  The percentages are split at the model-ready
    milestone of line 183: [pre] is the 0 of line 180, what
    [load_model] forwards and the 100 of line 183 (absent when the load
    raises); [post] is what lines 189 and 194 emit.  The terminal signal
    is the one of the path taken. *)
Definition transcription_shape (env : Env) (t : TranscriptionThread)
    (m : ModelManager) (flag : bool) (sigs : list signal) : Prop :=
  let '(t1, res, _) := load_model env m (model_name t) (Some forward) in
  exists pre post term,
    sigs = (progressUpdated <$> (pre ++ post)) ++ [term] /\
    is_terminal term = true /\
    nondecreasing pre = true /\
    forallb in_range (pre ++ post) = true /\
    match res with
    | Raise e =>
        pre = 0%Z :: percentages (signals t1) /\
        post = [] /\
        term = errorOccurred (str e)
    | Return model =>
        pre = 0%Z :: percentages (signals t1) ++ [100%Z] /\
        if flag then
          post = [] /\ term = errorOccurred interrupted_msg
        else
          match cuda_is_available env with
          | Raise e => post = [50%Z] /\ term = errorOccurred (str e)
          | Return use_fp16 =>
              match transcribe env model (file_path t) use_fp16 with
              | Raise e => post = [50%Z] /\ term = errorOccurred (str e)
              | Return result =>
                  post = [50%Z; 100%Z] /\
                  term = transcriptionFinished
                           (default "" (result !! "text"))
              end
          end
    end.

(** The signals of a download, read off lines 151-161: the 0 of line
    155, what [load_model] forwards, and the terminal signal of line 158
    or 161. *)
Definition download_shape (env : Env) (d : DownloaderThread.t)
    (m : ModelManager) (sigs : list signal) : Prop :=
  let '(t1, res, _) :=
    load_model env m (DownloaderThread.model_name d) (Some forward) in
  exists ps term,
    sigs = (progressUpdated <$> ps) ++ [term] /\
    is_terminal term = true /\
    nondecreasing ps = true /\
    forallb in_range ps = true /\
    ps = 0%Z :: percentages (signals t1) /\
    term = match res with
           | Return _ => downloadFinished true ""
           | Raise e => downloadFinished false (str e)
           end.

(** What a run leaves behind. *)
Definition observable (r : running) : list event * ModelManager :=
  (trace r, model_manager r).

(** An upper bound of the number of statements still to execute. *)
Definition remaining (p : point) : nat :=
  match p with
  | EmitStart => 10
  | Load => 9
  | EmitModelReady _ => 8
  | CheckInterrupted _ => 7
  | EmitPreTranscribe _ => 6
  | ProbeFp16 _ => 5
  | CallTranscribe _ _ => 4
  | InTranscribe _ _ => 3
  | EmitDone _ => 2
  | EmitFinished _ => 1
  | EmitInterrupted => 1
  | Handler _ => 1
  | Returned => 0
  end.

(** [steps_before_interrupt sched]: how many statements the worker has
    executed when the first [interrupt()] arrives. *)
Fixpoint steps_before_interrupt (sched : list move) : option nat :=
  match sched with
  | [] => None
  | Interrupt :: _ => Some 0%nat
  | Step :: rest => S <$> steps_before_interrupt rest
  end.

(** The flag is read by the fourth statement (line 184). *)
Definition interrupted_before_check (sched : list move) : bool :=
  match steps_before_interrupt sched with
  | Some k => (k <=? 3)%nat
  | None => false
  end.

(** The calls of the recognizer and the loads of weights in a trace. *)
Definition recognizer_calls (t : list event) : list event :=
  List.filter is_recognizer_call t.

Definition is_weight_load (e : event) : bool :=
  match e with WhisperLoadModel _ _ => true | _ => false end.

Definition weight_loads (t : list event) : list event :=
  List.filter is_weight_load t.

End Jobs.

(* ===================================================================== *)
(** ** [MainWindow]: the slots that drive the jobs *)
(* ===================================================================== *)

Module Gui.

Import ModelCache.

(** *** [QComboBox], as far as the program uses it *)

Record QComboBox : Type := {
  items : list string;
  currentIndex : Z
}.

Definition clear (c : QComboBox) : QComboBox :=
  {| items := []; currentIndex := -1 |}.

(** Filling an empty box makes its first item current. *)
Definition addItems (texts : list string) (c : QComboBox) : QComboBox :=
  {| items := items c ++ texts;
     currentIndex :=
       match items c, texts with
       | [], _ :: _ => 0
       | _, _ => currentIndex c
       end |}.

Definition count (c : QComboBox) : Z := Z.of_nat (length (items c)).

Definition currentText (c : QComboBox) : string :=
  if (currentIndex c <? 0)%Z then ""
  else default "" (items c !! Z.to_nat (currentIndex c)).

Fixpoint find_from (text : string) (l : list string) (i : Z) : Z :=
  match l with
  | [] => -1
  | x :: r => if String.eqb x text then i else find_from text r (i + 1)
  end.

Definition findText (text : string) (c : QComboBox) : Z :=
  find_from text (items c) 0.

Definition setCurrentIndex (i : Z) (c : QComboBox) : QComboBox :=
  {| items := items c;
     currentIndex := if ((0 <=? i) && (i <? count c))%Z then i else -1 |}.

(** *** The window *)

(** A [QThread] object held by the window and what [isRunning()]
    answers. *)
Record handle (T : Type) : Type := {
  thread : T;
  isRunning : bool
}.
Arguments thread {T} h.
Arguments isRunning {T} h.

(** The attributes of [MainWindow] that the job slots read or write.
    [status_bar] and [text_output] keep what was shown, oldest first;
    the labels of the hardware panel are left out. *)
Record MainWindow : Type := {
  file_path : option string;
  downloader_thread : option (handle Jobs.DownloaderThread.t);
  transcription_thread : option (handle Jobs.TranscriptionThread);
  last_progress_update : Q;
  combo_available : QComboBox;
  combo_downloaded : QComboBox;
  label_recommended : string;
  btn_download_enabled : bool;
  progress_bar : Z;
  text_output : list string;
  status_bar : list string;
  message_boxes : list string
}.

Definition with_lists (w : MainWindow) (avail down : QComboBox)
    (recommended : string) : MainWindow :=
  {| file_path := file_path w; downloader_thread := downloader_thread w;
     transcription_thread := transcription_thread w;
     last_progress_update := last_progress_update w;
     combo_available := avail; combo_downloaded := down;
     label_recommended := recommended;
     btn_download_enabled := btn_download_enabled w;
     progress_bar := progress_bar w; text_output := text_output w;
     status_bar := status_bar w; message_boxes := message_boxes w |}.

Definition with_download (w : MainWindow)
    (t : option (handle Jobs.DownloaderThread.t)) (enabled : bool)
    : MainWindow :=
  {| file_path := file_path w; downloader_thread := t;
     transcription_thread := transcription_thread w;
     last_progress_update := last_progress_update w;
     combo_available := combo_available w;
     combo_downloaded := combo_downloaded w;
     label_recommended := label_recommended w;
     btn_download_enabled := enabled;
     progress_bar := progress_bar w; text_output := text_output w;
     status_bar := status_bar w; message_boxes := message_boxes w |}.

Definition with_progress (w : MainWindow) (value : Z) (now : Q)
    : MainWindow :=
  {| file_path := file_path w; downloader_thread := downloader_thread w;
     transcription_thread := transcription_thread w;
     last_progress_update := now;
     combo_available := combo_available w;
     combo_downloaded := combo_downloaded w;
     label_recommended := label_recommended w;
     btn_download_enabled := btn_download_enabled w;
     progress_bar := value; text_output := text_output w;
     status_bar := status_bar w; message_boxes := message_boxes w |}.

Definition setValue (value : Z) (w : MainWindow) : MainWindow :=
  with_progress w value (last_progress_update w).

Definition append (line : string) (w : MainWindow) : MainWindow :=
  {| file_path := file_path w; downloader_thread := downloader_thread w;
     transcription_thread := transcription_thread w;
     last_progress_update := last_progress_update w;
     combo_available := combo_available w;
     combo_downloaded := combo_downloaded w;
     label_recommended := label_recommended w;
     btn_download_enabled := btn_download_enabled w;
     progress_bar := progress_bar w; text_output := text_output w ++ [line];
     status_bar := status_bar w; message_boxes := message_boxes w |}.

Definition showMessage (msg : string) (w : MainWindow) : MainWindow :=
  {| file_path := file_path w; downloader_thread := downloader_thread w;
     transcription_thread := transcription_thread w;
     last_progress_update := last_progress_update w;
     combo_available := combo_available w;
     combo_downloaded := combo_downloaded w;
     label_recommended := label_recommended w;
     btn_download_enabled := btn_download_enabled w;
     progress_bar := progress_bar w; text_output := text_output w;
     status_bar := status_bar w ++ [msg]; message_boxes := message_boxes w |}.

Definition messageBox (msg : string) (w : MainWindow) : MainWindow :=
  {| file_path := file_path w; downloader_thread := downloader_thread w;
     transcription_thread := transcription_thread w;
     last_progress_update := last_progress_update w;
     combo_available := combo_available w;
     combo_downloaded := combo_downloaded w;
     label_recommended := label_recommended w;
     btn_download_enabled := btn_download_enabled w;
     progress_bar := progress_bar w; text_output := text_output w;
     status_bar := status_bar w; message_boxes := message_boxes w ++ [msg] |}.

(** The user picks an entry of [combo_available]. *)
Definition select_available (i : Z) (w : MainWindow) : MainWindow :=
  with_lists w (setCurrentIndex i (combo_available w)) (combo_downloaded w)
             (label_recommended w).

(** *** The stall monitor *)

Definition stuck_msg : string :=
  "Operazione in corso da troppo tempo. Verifica se il programma è bloccato...".

(** [x > y] on the rationals. *)
Definition Qgtb (x y : Q) : bool := negb (Qle_bool x y).

(** [check_progress_stuck], with [now] the answer of [time.time()]. *)
Definition check_progress_stuck (now : Q) (w : MainWindow) : MainWindow :=
  let elapsed := (now - last_progress_update w)%Q in
  if Qgtb elapsed 20 then showMessage stuck_msg w else w.

Definition on_download_progress (now : Q) (value : Z) (w : MainWindow)
    : MainWindow :=
  showMessage ("Download in corso: " +:+ pretty value +:+ "%")
              (with_progress w value now).

Definition on_transcription_progress (now : Q) (value : Z) (w : MainWindow)
    : MainWindow :=
  showMessage ("Trascrizione in corso: " +:+ pretty value +:+ "%")
              (with_progress w value now).

(** What reaches the GUI thread between two user actions: a timeout of
    [monitor_timer] (started with a period of 1000 ms) or a progress
    signal of a worker, each at the time the slot reads the clock. *)
Inductive arrival : Type :=
| Tick (now : Q)
| DownloadProgress (now : Q) (value : Z)
| TranscriptionProgress (now : Q) (value : Z).

Definition dispatch (w : MainWindow) (a : arrival) : MainWindow :=
  match a with
  | Tick now => check_progress_stuck now w
  | DownloadProgress now value => on_download_progress now value w
  | TranscriptionProgress now value => on_transcription_progress now value w
  end.

Definition advisories (w : MainWindow) : nat :=
  length (filter (fun m => m = stuck_msg) (status_bar w)).

Definition job_active (w : MainWindow) : bool :=
  match downloader_thread w with
  | Some h => isRunning h
  | None => false
  end
  || match transcription_thread w with
     | Some h => isRunning h
     | None => false
     end.

(** Timeouts of the monitor at the given times, nothing in between. *)
Definition ticks (w : MainWindow) (times : list Q) : MainWindow :=
  fold_left dispatch (Tick <$> times) w.

(** The times [start + 1, ..., start + n], one per second. *)
Definition every_second (start : Z) (n : nat) : list Q :=
  (fun k => inject_Z (start + Z.of_nat k)) <$> seq 1 n.

Definition overdue (w : MainWindow) (times : list Q) : list Q :=
  List.filter (fun now => Qgtb (now - last_progress_update w) 20) times.

(** *** The application: window, global [model_manager], disk *)

Record App : Type := {
  window : MainWindow;
  manager : ModelManager;
  disk : files
}.

Definition on_window (f : MainWindow -> MainWindow) (a : App) : App :=
  {| window := f (window a); manager := manager a; disk := disk a |}.

Section WithProbes.

Variable p : Recommend.probes.

(** [setup_model_lists]; an exception of the probes leaves the window
    as it is. *)
Definition setup_model_lists (a : App) : outcome unit * App :=
  match Recommend.check_recommended_model p with
  | Raise e => (Raise e, a)
  | Return (recommended, _) =>
      let downloaded :=
        filter (fun m => is_model_downloaded (manager a) m (disk a) = true)
               ALL_MODELS in
      let available :=
        filter (fun m => is_model_downloaded (manager a) m (disk a) = false)
               ALL_MODELS in
      let w := window a in
      let down := addItems downloaded (clear (combo_downloaded w)) in
      let avail := addItems available (clear (combo_available w)) in
      let down :=
        if decide (recommended ∈ downloaded) then
          let index := findText recommended down in
          if (index =? -1)%Z then down else setCurrentIndex index down
        else down in
      let label :=
        "Modello consigliato: " +:+ recommended
        +:+ " (basato sulle specifiche del sistema)" in
      (Return tt, on_window (fun w => with_lists w avail down label) a)
  end.

(** [download_model]: the click on "Scarica modello selezionato". *)
Definition download_model (a : App) : App :=
  let w := window a in
  if (count (combo_available w) =? 0)%Z then
    on_window (messageBox "Non ci sono modelli da scaricare.") a
  else
    let model_name := currentText (combo_available w) in
    let t := {| thread := Jobs.DownloaderThread.__init__ model_name;
                isRunning := true |} in
    on_window (fun w =>
      with_download
        (append ("Inizio download del modello '" +:+ model_name +:+ "'") w)
        (Some t) false) a.

(** [on_download_finished] *)
Definition on_download_finished (success : bool) (error : string)
    (a : App) : outcome unit * App :=
  let a :=
    if success then
      let a := on_window (append "Download completato.") a in
      let a :=
        {| window := window a; manager := manager a;
           disk := mark_model_as_downloaded (manager a)
                     (currentText (combo_available (window a))) (disk a) |} in
      on_window (showMessage "Download completato.") a
    else
      on_window (fun w => showMessage "Download fallito."
                            (append ("Download fallito: " +:+ error) w)) a in
  match setup_model_lists a with
  | (Raise e, a) => (Raise e, a)
  | (Return _, a) =>
      (Return tt,
       on_window (fun w => with_download (setValue 0 w)
                             (downloader_thread w) true) a)
  end.

(** The signals of the downloader reach the slots they are connected
    to, in the order of emission. *)
Fixpoint deliver (now : Q) (sigs : list signal) (a : App)
    : outcome unit * App :=
  match sigs with
  | [] => (Return tt, a)
  | progressUpdated value :: rest =>
      deliver now rest (on_window (on_download_progress now value) a)
  | downloadFinished success error :: rest =>
      match on_download_finished success error a with
      | (Raise e, a) => (Raise e, a)
      | (Return _, a) => deliver now rest a
      end
  | _ :: rest => deliver now rest a
  end.

(** A click on the download button, the run of the worker it starts,
    and what the user does to the window while the worker runs.  The
    worker is the only one that calls into the manager during the
    session: [meanwhile] stands for what is done to the window alone,
    such as picking entries of the lists ([passing] below), not for the
    start of a transcription. *)
Definition download_session (env : Env) (now : Q)
    (meanwhile : MainWindow -> MainWindow) (a : App)
    : outcome unit * App :=
  let a := download_model a in
  match downloader_thread (window a) with
  | None => (Return tt, a)
  | Some h =>
      if isRunning h then
        let '(t, m) := Jobs.DownloaderThread.run env (thread h) (manager a) in
        let returned := {| thread := thread h; isRunning := false |} in
        let a := {| window := with_download (meanwhile (window a))
                                (Some returned)
                                (btn_download_enabled (window a));
                    manager := m; disk := disk a |} in
        deliver now (Jobs.signals t) a
      else (Return tt, a)
  end.

(** [MainWindow.__init__] at time [now], on a given disk. *)
Definition new_window (now : Q) (d : files) : outcome unit * App :=
  setup_model_lists
    {| window :=
         {| file_path := None; downloader_thread := None;
            transcription_thread := None; last_progress_update := now;
            combo_available := {| items := []; currentIndex := -1 |};
            combo_downloaded := {| items := []; currentIndex := -1 |};
            label_recommended := "Modello consigliato: N/D";
            btn_download_enabled := true; progress_bar := 0;
            text_output := []; status_bar := []; message_boxes := [] |};
       manager := ModelCache.init;
       disk := d |}.

End WithProbes.

(** *** The slots of the file and of the transcription *)

Definition with_file (w : MainWindow) (path : string) : MainWindow :=
  {| file_path := Some path; downloader_thread := downloader_thread w;
     transcription_thread := transcription_thread w;
     last_progress_update := last_progress_update w;
     combo_available := combo_available w;
     combo_downloaded := combo_downloaded w;
     label_recommended := label_recommended w;
     btn_download_enabled := btn_download_enabled w;
     progress_bar := progress_bar w; text_output := text_output w;
     status_bar := status_bar w; message_boxes := message_boxes w |}.

Definition with_transcription (w : MainWindow)
    (t : option (handle Jobs.TranscriptionThread)) : MainWindow :=
  {| file_path := file_path w; downloader_thread := downloader_thread w;
     transcription_thread := t;
     last_progress_update := last_progress_update w;
     combo_available := combo_available w;
     combo_downloaded := combo_downloaded w;
     label_recommended := label_recommended w;
     btn_download_enabled := btn_download_enabled w;
     progress_bar := progress_bar w; text_output := text_output w;
     status_bar := status_bar w; message_boxes := message_boxes w |}.

(** The user picks an entry of [combo_downloaded]. *)
Definition select_downloaded (i : Z) (w : MainWindow) : MainWindow :=
  with_lists w (combo_available w) (setCurrentIndex i (combo_downloaded w))
             (label_recommended w).

(** [choose_file]: [chosen] is the path the file dialog answers, empty
    when the dialog is dismissed.  The label of the path is left out. *)
Definition choose_file (which : string -> option string)
    (subprocess_run : list string -> Z) (chosen : string) (w : MainWindow)
    : outcome unit * MainWindow :=
  if String.eqb chosen "" then (Return tt, w)
  else
    let failed :=
      messageBox "Impossibile convertire il file nel formato richiesto."
                 (append "Errore nella conversione del file." w) in
    match Normalizer.convert_file_if_needed which subprocess_run chosen with
    | Raise (FileNotFoundError msg) => (Return tt, messageBox msg w)
    | Raise e => (Raise e, w)
    | Return (Some converted_file) =>
        if String.eqb converted_file "" then (Return tt, failed)
        else
          (Return tt,
           showMessage "File caricato correttamente."
             (append ("File selezionato: " +:+ converted_file)
                     (with_file w converted_file)))
    | Return None => (Return tt, failed)
    end.

(** [start_transcription] *)
Definition start_transcription (w : MainWindow) : MainWindow :=
  let no_file := messageBox "Seleziona un file prima di trascrivere." w in
  match file_path w with
  | None => no_file
  | Some path =>
      if String.eqb path "" then no_file
      else if (count (combo_downloaded w) =? 0)%Z then
        messageBox "Non ci sono modelli scaricati. Scarica un modello prima." w
      else
        let model_name := currentText (combo_downloaded w) in
        let t := {| thread := Jobs.new_transcription model_name path;
                    isRunning := true |} in
        with_transcription (setValue 0 (append "Inizio trascrizione..." w))
                           (Some t)
  end.

(** [cancel_transcription] *)
Definition cancel_transcription (w : MainWindow) : MainWindow :=
  match transcription_thread w with
  | Some h =>
      if isRunning h then
        let t := thread h in
        let interrupted :=
          {| Jobs.model_name := Jobs.model_name t;
             Jobs.file_path := Jobs.file_path t;
             Jobs._is_interrupted := true |} in
        setValue 0
          (showMessage "Trascrizione annullata."
             (append "Trascrizione annullata."
                (with_transcription w
                   (Some {| thread := interrupted; isRunning := true |}))))
      else w
  | None => w
  end.

Definition on_transcription_finished (text : string) (w : MainWindow)
    : MainWindow :=
  setValue 0
    (showMessage "Trascrizione completata."
       (append text (append "Trascrizione completata:" w))).

Definition on_transcription_error (error : string) (w : MainWindow)
    : MainWindow :=
  setValue 0
    (showMessage "Errore nella trascrizione."
       (append ("Errore: " +:+ error) w)).

(** What the user and the workers can make the window do, one slot at a
    time. *)
Inductive action : Type :=
| ChooseFile (which : string -> option string)
             (subprocess_run : list string -> Z) (chosen : string)
| ClickDownload
| ClickTranscribe
| ClickCancel
| SelectAvailable (i : Z)
| SelectDownloaded (i : Z)
| Arrive (a : arrival)
| DownloadFinished (success : bool) (error : string)
| TranscriptionFinished (text : string)
| TranscriptionError (error : string).

(** The application after a slot has run, be it to its end or to an
    exception. *)
Definition perform (p : Recommend.probes) (a : App) (act : action) : App :=
  match act with
  | ChooseFile which subprocess_run chosen =>
      on_window (fun w => (choose_file which subprocess_run chosen w).2) a
  | ClickDownload => download_model a
  | ClickTranscribe => on_window start_transcription a
  | ClickCancel => on_window cancel_transcription a
  | SelectAvailable i => on_window (select_available i) a
  | SelectDownloaded i => on_window (select_downloaded i) a
  | Arrive x => on_window (fun w => dispatch w x) a
  | DownloadFinished success error => (on_download_finished p success error a).2
  | TranscriptionFinished text => on_window (on_transcription_finished text) a
  | TranscriptionError error => on_window (on_transcription_error error) a
  end.

(** The window after the progress signals of a download. *)
Definition progressed (now : Q) (ps : list Z) (w : MainWindow) : MainWindow :=
  fold_left (fun w value => on_download_progress now value w) ps w.

(** What the user can do to the window while a download runs without
    starting another worker: picking entries of the two lists, and
    waiting while the monitor ticks. *)
Inductive pastime : Type :=
| PickAvailable (i : Z)
| PickDownloaded (i : Z)
| Wait (now : Q).

Definition pass (w : MainWindow) (x : pastime) : MainWindow :=
  match x with
  | PickAvailable i => select_available i w
  | PickDownloaded i => select_downloaded i w
  | Wait now => check_progress_stuck now w
  end.

Definition passing (xs : list pastime) (w : MainWindow) : MainWindow :=
  fold_left pass xs w.

Definition leaves_available (x : pastime) : bool :=
  match x with
  | PickAvailable _ => false
  | _ => true
  end.

(** No transcription worker is at work, which could call [load_model]
    on the manager while a download does. *)
Definition no_transcription_running (w : MainWindow) : Prop :=
  match transcription_thread w with
  | Some h => isRunning h = false
  | None => True
  end.

(** The extension of a path is one of the audio extensions. *)
Definition audio_path (path : string) : Prop :=
  lower (splitext path).2 ∈ Normalizer.audio_ext.

(** What holds of the window whatever is done to it. *)
Definition sound (w : MainWindow) : Prop :=
  match file_path w with
  | Some path => path <> "" /\ audio_path path
  | None => True
  end /\
  match transcription_thread w with
  | Some h =>
      audio_path (Jobs.file_path (thread h)) /\
      Jobs.model_name (thread h) ∈ "" :: ALL_MODELS
  | None => True
  end /\
  match downloader_thread w with
  | Some h => Jobs.DownloaderThread.model_name (thread h) ∈ "" :: ALL_MODELS
  | None => True
  end /\
  items (combo_available w) ⊆ ALL_MODELS /\
  items (combo_downloaded w) ⊆ ALL_MODELS.

End Gui.

(* ===================================================================== *)
(** * Properties *)
(* ===================================================================== *)

(** ** The definitions at work *)

Example splitext_last_dot :
  splitext "/home/u/talk.v2.MP4" = ("/home/u/talk.v2", ".MP4").
Proof. reflexivity. Qed.

Example splitext_hidden_file : splitext "/home/u/.bashrc" = ("/home/u/.bashrc", "").
Proof. reflexivity. Qed.

Example splitext_dot_in_directory :
  splitext "/home/u.d/talk" = ("/home/u.d/talk", "").
Proof. reflexivity. Qed.

Example lower_extension : lower ".MP4" = ".mp4".
Proof. reflexivity. Qed.

Example join_marker : join "models" "tiny.model" = "models/tiny.model".
Proof. reflexivity. Qed.

Example round2_ties_to_even : round2 (1 # 8) = (12 # 100)%Q.
Proof. reflexivity. Qed.

Example convert_audio_unchanged :
  Normalizer.convert_file_if_needed
    (fun _ => Some "/usr/bin/ffmpeg") (fun _ => 0%Z) "a.WAV"
  = Return (Some "a.WAV").
Proof. vm_compute. reflexivity. Qed.

Example convert_video_to_wav :
  Normalizer.convert_file_if_needed
    (fun _ => Some "/usr/bin/ffmpeg") (fun _ => 0%Z) "d/a.mp4"
  = Return (Some "d/a.wav").
Proof. vm_compute. reflexivity. Qed.

Example download_of_base :
  Jobs.signals
    (Jobs.DownloaderThread.run (ModelCache.healthy 1)
       (Jobs.DownloaderThread.__init__ "base") ModelCache.init).1
  = [ModelCache.progressUpdated 0; ModelCache.progressUpdated 0;
     ModelCache.progressUpdated 100; ModelCache.downloadFinished true ""].
Proof. reflexivity. Qed.

(** ** The recommendation *)

Section RecommendFacts.

Import Recommend.

Lemma Qle_bool_false (x y : Q) : Qle_bool x y = false <-> (y < x)%Q.
Proof.
  split.
  - intros H. apply Qnot_le_lt. intros Hle.
    apply Qle_bool_iff in Hle. congruence.
  - intros H. destruct (Qle_bool x y) eqn:E; [|reflexivity].
    apply Qle_bool_iff in E. exfalso. exact (Qlt_not_le _ _ H E).
Qed.

(** [available / 1024**3 >= 8] is a comparison of byte counts. *)
Lemma ram_threshold (available : Z) :
  Qle_bool 8 (inject_Z available / GiB) = (8 * 1024 ^ 3 <=? available)%Z.
Proof.
  unfold Qle_bool, GiB, Qdiv, Qinv, Qmult, inject_Z. simpl.
  change (Z.pos (1 * (1024 * (1024 * (1024 * 1))))) with (1024 ^ 3)%Z.
  f_equal. lia.
Qed.

Lemma gpu_row_table (v : Q) :
  gpu_row v (if Qle_bool 8 v then "large"
             else if Qle_bool 6 v then "medium"
             else if Qle_bool 4 v then "small"
             else "base").
Proof.
  unfold gpu_row.
  destruct (Qle_bool 8 v) eqn:E8; [apply Qle_bool_iff in E8 | apply Qle_bool_false in E8];
  (destruct (Qle_bool 6 v) eqn:E6; [apply Qle_bool_iff in E6 | apply Qle_bool_false in E6]);
  (destruct (Qle_bool 4 v) eqn:E4; [apply Qle_bool_iff in E4 | apply Qle_bool_false in E4]);
  repeat split; intros; try reflexivity; exfalso;
    repeat match goal with
           | H : (?a <= ?b)%Q |- _ => unfold Qle in H; simpl in H
           | H : (?a < ?b)%Q |- _ => unfold Qlt in H; simpl in H
           end; lia.
Qed.

(** C8, as the spec states it, fails: a failure of the probe of the
    total memory, made before the [try] block, is not turned into
    "tiny"; the exception leaves the function. *)
Lemma recommendation_probe_failure_uncaught :
  let p := {| cpu_count := Return (Some 4%Z);
              ram_total := Raise (Exception "psutil");
              cuda_is_available := Return false;
              cuda_device_name := Raise (Exception "no device");
              cuda_total_memory := Raise (Exception "no device");
              ram_available := Return (16 * 1024 ^ 3)%Z |} in
  is_return (ram_total p) = false /\
  check_recommended_model p = Raise (Exception "psutil") /\
  forall specs, check_recommended_model p <> Return ("tiny", specs).
Proof. cbv zeta. repeat split. intros specs H. discriminate H. Qed.

(** C8 (amended).  When the two probes made before the [try] block
    (core count, total memory) answer, [check_recommended_model] returns
    the model of the decision table: with a GPU, on the video memory in
    GB rounded to two decimals as recorded in [specs], >= 8 gives large,
    >= 6 medium, >= 4 small, less base; without a GPU, available memory
    of at least 8 GB gives small, less base; and a failure of a probe
    inside the [try] block gives tiny. *)
Theorem recommendation_decision_table (p : probes) (c : option Z) (total : Z) :
  cpu_count p = Return c ->
  ram_total p = Return total ->
  exists recommended specs,
    check_recommended_model p = Return (recommended, specs) /\
    (forall name mem,
        cuda_is_available p = Return true ->
        cuda_device_name p = Return name ->
        cuda_total_memory p = Return mem ->
        gpu specs = Some name /\
        vram specs = Some (round2 (inject_Z mem / GiB)) /\
        gpu_row (round2 (inject_Z mem / GiB)) recommended) /\
    (forall available,
        cuda_is_available p = Return false ->
        ram_available p = Return available ->
        ((8 * 1024 ^ 3 <= available)%Z -> recommended = "small") /\
        ((available < 8 * 1024 ^ 3)%Z -> recommended = "base")) /\
    (failed_inside p -> recommended = "tiny").
Proof.
  intros Hc Ht. unfold check_recommended_model, failed_inside.
  rewrite Hc, Ht. cbn [mbind outcome_bind]. unfold guarded.
  destruct (cuda_is_available p) as [[|]|e].
  - destruct (cuda_device_name p) as [name|e].
    + destruct (cuda_total_memory p) as [mem|e].
      * eexists _, _. split; [reflexivity|]. split; [|split].
        -- intros name' mem' _ Hn Hm. injection Hn as <-. injection Hm as <-.
           cbn. split; [reflexivity|]. split; [reflexivity|].
           apply gpu_row_table.
        -- intros a H. discriminate H.
        -- cbn. intros H. discriminate H.
      * eexists _, _. split; [reflexivity|]. split; [|split].
        -- intros name' mem' _ _ Hm. discriminate Hm.
        -- intros a H. discriminate H.
        -- reflexivity.
    + eexists _, _. split; [reflexivity|]. split; [|split].
      * intros name' mem' _ Hn. discriminate Hn.
      * intros a H. discriminate H.
      * reflexivity.
  - destruct (ram_available p) as [available|e].
    + eexists _, _. split; [reflexivity|]. split; [|split].
      * intros name' mem' H. discriminate H.
      * intros a _ Ha. injection Ha as <-. rewrite ram_threshold.
        destruct (Z.leb_spec (8 * 1024 ^ 3) available); split; intros;
          try reflexivity; lia.
      * cbn. intros H. discriminate H.
    + eexists _, _. split; [reflexivity|]. split; [|split].
      * intros name' mem' H. discriminate H.
      * intros a _ Ha. discriminate Ha.
      * reflexivity.
  - eexists _, _. split; [reflexivity|]. split; [|split].
    + intros name' mem' H. discriminate H.
    + intros a H. discriminate H.
    + reflexivity.
Qed.

Lemma recommendation_decision_table_witness :
  let p := {| cpu_count := Return (Some 8%Z);
              ram_total := Return (32 * 1024 ^ 3)%Z;
              cuda_is_available := Return true;
              cuda_device_name := Return "RTX";
              cuda_total_memory := Return (6 * 1024 ^ 3)%Z;
              ram_available := Return (20 * 1024 ^ 3)%Z |} in
  cpu_count p = Return (Some 8%Z) /\
  ram_total p = Return (32 * 1024 ^ 3)%Z /\
  exists recommended specs,
    check_recommended_model p = Return (recommended, specs) /\
    (forall name mem,
        cuda_is_available p = Return true ->
        cuda_device_name p = Return name ->
        cuda_total_memory p = Return mem ->
        gpu specs = Some name /\
        vram specs = Some (round2 (inject_Z mem / GiB)) /\
        gpu_row (round2 (inject_Z mem / GiB)) recommended) /\
    (forall available,
        cuda_is_available p = Return false ->
        ram_available p = Return available ->
        ((8 * 1024 ^ 3 <= available)%Z -> recommended = "small") /\
        ((available < 8 * 1024 ^ 3)%Z -> recommended = "base")) /\
    (failed_inside p -> recommended = "tiny").
Proof.
  cbv zeta. split; [reflexivity|]. split; [reflexivity|].
  apply (recommendation_decision_table _ (Some 8%Z) (32 * 1024 ^ 3)%Z);
    reflexivity.
Defined.

End RecommendFacts.

(** ** The format normalizer *)

Section NormalizerFacts.

Import Normalizer.

Lemma video_not_audio (ext : string) : ext ∈ video_ext -> ext ∉ audio_ext.
Proof.
  unfold video_ext, audio_ext. intros Hv Ha.
  repeat (apply elem_of_cons in Hv as [->|Hv]);
    try (apply elem_of_nil in Hv; contradiction);
    repeat (apply elem_of_cons in Ha as [Ha|Ha]; [discriminate Ha|]);
    apply elem_of_nil in Ha; contradiction.
Qed.

(** C10.  The search for [ffmpeg] comes first: without it every call
    raises [FileNotFoundError], whatever the extension, and so does a call
    on an audio file, which the same call returns unchanged as soon as
    the tool is found. *)
Theorem missing_transcoder_checked_first
    (which : string -> option string) (subprocess_run : list string -> Z)
    (file_path : string) :
  which "ffmpeg" = None ->
  convert_file_if_needed which subprocess_run file_path
    = Raise (FileNotFoundError ffmpeg_missing) /\
  (lower (snd (splitext file_path)) ∈ audio_ext ->
   forall tool,
     convert_file_if_needed (fun _ => Some tool) subprocess_run file_path
     = Return (Some file_path)).
Proof.
  intros Hw. unfold convert_file_if_needed. rewrite Hw. split; [reflexivity|].
  intros Ha tool. destruct (decide _) as [_|Hn]; [reflexivity|contradiction].
Qed.

Lemma missing_transcoder_checked_first_witness :
  convert_file_if_needed (fun _ => None) (fun _ => 0%Z) "song.wav"
    = Raise (FileNotFoundError ffmpeg_missing) /\
  convert_file_if_needed (fun _ => Some "/usr/bin/ffmpeg") (fun _ => 0%Z)
                         "song.wav"
    = Return (Some "song.wav").
Proof.
  destruct (missing_transcoder_checked_first (fun _ => None) (fun _ => 0%Z)
              "song.wav" eq_refl) as [Hraise Haudio].
  split; [exact Hraise|].
  apply Haudio. apply (bool_decide_unpack _). vm_compute. exact I.
Defined.

(** C4, as the spec states it, fails: an unknown extension and a failed
    transcode give the caller the same value, [None]. *)
Lemma unsupported_and_failed_transcode_coincide :
  let which := fun _ : string => Some "/usr/bin/ffmpeg" in
  let failing := fun _ : list string => 1%Z in
  (lower (snd (splitext "clip.xyz")) ∉ audio_ext) /\
  (lower (snd (splitext "clip.xyz")) ∉ video_ext) /\
  (lower (snd (splitext "clip.mp4")) ∈ video_ext) /\
  convert_file_if_needed which failing "clip.xyz"
  = convert_file_if_needed which failing "clip.mp4".
Proof.
  cbv zeta. split; [|split; [|split]].
  - apply (bool_decide_unpack _). vm_compute. exact I.
  - apply (bool_decide_unpack _). vm_compute. exact I.
  - apply (bool_decide_unpack _). vm_compute. exact I.
  - vm_compute. reflexivity.
Qed.

(** C4 (amended).  With the transcoder on the search path, every input
    whose extension is neither audio nor video, and every video input
    whose transcode exits with a non-zero status, makes
    [convert_file_if_needed] return [None]: one failure value for both.
    That value differs from the [FileNotFoundError] raised when the
    transcoder is missing and from every returned path. *)
Theorem normalizer_failure_values
    (which : string -> option string) (subprocess_run : list string -> Z)
    (file_path tool : string) :
  which "ffmpeg" = Some tool ->
  let ext := lower (snd (splitext file_path)) in
  let new_file := fst (splitext file_path) +:+ ".wav" in
  let result := convert_file_if_needed which subprocess_run file_path in
  (ext ∉ audio_ext -> ext ∉ video_ext -> result = Return None) /\
  (ext ∈ video_ext ->
   subprocess_run ["ffmpeg"; "-y"; "-i"; file_path; new_file] <> 0%Z ->
   result = Return None) /\
  (@Return (option string) None
     <> convert_file_if_needed (fun _ => None) subprocess_run file_path) /\
  (forall resolved : string, @Return (option string) None <> Return (Some resolved)).
Proof.
  intros Hw ext new_file result. subst result ext new_file.
  unfold convert_file_if_needed. rewrite Hw.
  split; [|split; [|split]].
  - intros Ha Hv.
    destruct (decide _) as [H|_]; [contradiction|].
    destruct (decide _) as [H|_]; [contradiction|]. reflexivity.
  - intros Hv Hexit.
    destruct (decide _) as [H|_]; [exfalso; exact (video_not_audio _ Hv H)|].
    destruct (decide _) as [_|H]; [|contradiction].
    destruct (Z.eqb_spec (subprocess_run ["ffmpeg"; "-y"; "-i"; file_path;
                fst (splitext file_path) +:+ ".wav"]) 0) as [E|_];
      [contradiction|reflexivity].
  - discriminate.
  - discriminate.
Qed.

Lemma normalizer_failure_values_witness :
  let which := fun _ : string => Some "/usr/bin/ffmpeg" in
  let failing := fun _ : list string => 1%Z in
  convert_file_if_needed which failing "clip.xyz" = Return None /\
  convert_file_if_needed which failing "clip.mp4" = Return None.
Proof.
  cbv zeta. split.
  - destruct (normalizer_failure_values (fun _ => Some "/usr/bin/ffmpeg")
                (fun _ => 1%Z) "clip.xyz" "/usr/bin/ffmpeg" eq_refl)
      as [Hunknown _].
    apply Hunknown; apply (bool_decide_unpack _); vm_compute; exact I.
  - destruct (normalizer_failure_values (fun _ => Some "/usr/bin/ffmpeg")
                (fun _ => 1%Z) "clip.mp4" "/usr/bin/ffmpeg" eq_refl)
      as [_ [Hfailed _]].
    apply Hfailed.
    + apply (bool_decide_unpack _). vm_compute. exact I.
    + discriminate.
Defined.

End NormalizerFacts.

(** ** The model cache *)

Section ModelCacheFacts.

Import ModelCache.

Lemma model_path_of_identifier (self : ModelManager) (X : string) :
  cache_folder self = "models" -> X ∈ ALL_MODELS ->
  model_path self X = "models/" +:+ X +:+ ".model".
Proof.
  unfold model_path, ALL_MODELS. intros -> HX.
  repeat (apply elem_of_cons in HX as [->|HX]); try reflexivity.
  apply elem_of_nil in HX. contradiction.
Qed.

(** C7, as the spec states it, fails: the marker file is not empty, it
    holds the ten characters of "downloaded". *)
Lemma marker_file_is_not_empty :
  mark_model_as_downloaded init "tiny" ∅ !! "models/tiny.model"
    = Some "downloaded" /\
  String.length "downloaded" = 10%nat /\
  mark_model_as_downloaded init "tiny" ∅ !! "models/tiny.model" <> Some "".
Proof. repeat split. intros H. vm_compute in H. discriminate H. Qed.

(** C7 (amended).  For every identifier X of [ALL_MODELS], marking X as
    downloaded writes the file [models/X.model] with the content
    "downloaded" and leaves every other file of the disk as it was;
    [is_model_downloaded] X reports whether that file is present, and is
    true after the marking. *)
Theorem marker_file_layout (self : ModelManager) (X : string) (disk : files) :
  cache_folder self = "models" -> X ∈ ALL_MODELS ->
  let marker := "models/" +:+ X +:+ ".model" in
  let disk' := mark_model_as_downloaded self X disk in
  disk' = <[marker := "downloaded"]> disk /\
  disk' !! marker = Some "downloaded" /\
  (forall path, path <> marker -> disk' !! path = disk !! path) /\
  is_model_downloaded self X disk' = true /\
  (is_model_downloaded self X disk = true <-> is_Some (disk !! marker)).
Proof.
  intros Hf HX marker disk'. subst marker disk'.
  unfold mark_model_as_downloaded, is_model_downloaded.
  rewrite (model_path_of_identifier self X Hf HX).
  split; [reflexivity|]. split; [apply lookup_insert_eq|].
  split; [intros path Hne; apply lookup_insert_ne; congruence|].
  split.
  - apply bool_decide_eq_true. rewrite lookup_insert_eq. eauto.
  - apply bool_decide_eq_true.
Qed.

Lemma marker_file_layout_witness :
  mark_model_as_downloaded init "base" ∅ = {["models/base.model" := "downloaded"]} /\
  is_model_downloaded init "base" (mark_model_as_downloaded init "base" ∅) = true.
Proof.
  assert (Hin : "base" ∈ ALL_MODELS)
    by (apply (bool_decide_unpack _); vm_compute; exact I).
  destruct (marker_file_layout init "base" ∅ eq_refl Hin)
    as (Heq & _ & _ & Hdown & _).
  split; [exact Heq | exact Hdown].
Defined.

Lemma load_model_hit (env : Env) (self : ModelManager) (X : string)
    (cb : option (Z -> list event)) (m : Model) :
  loaded_model self = Some m -> current_model_name self = Some X ->
  load_model env self X cb = ([], Return m, self).
Proof.
  intros Hm HX. unfold load_model, cached. rewrite Hm.
  destruct (decide _) as [_|Hne]; [reflexivity|contradiction].
Qed.

Lemma load_model_returns (env : Env) (self : ModelManager) (X : string)
    (cb : option (Z -> list event)) t m self' :
  load_model env self X cb = (t, Return m, self') ->
  loaded_model self' = Some m /\ current_model_name self' = Some X /\
  (coherent self -> weights m = X).
Proof.
  unfold load_model, cached, coherent.
  destruct (loaded_model self) as [m0|] eqn:Hl;
    [destruct (decide (current_model_name self = Some X)) as [Hn|Hn]|].
  - intros [= <- <- <-]. rewrite Hl, Hn. repeat split.
    intros [= ->]. reflexivity.
  - destruct (cuda_is_available env) as [c|e]; [|discriminate].
    destruct (whisper_load_model env X _) as [i|e]; [|discriminate].
    intros [= <- <- <-]. repeat split.
  - destruct (cuda_is_available env) as [c|e]; [|discriminate].
    destruct (whisper_load_model env X _) as [i|e]; [|discriminate].
    intros [= <- <- <-]. repeat split.
Qed.

Lemma load_model_raises (env : Env) (self : ModelManager) (X : string)
    (cb : option (Z -> list event)) t e self' :
  load_model env self X cb = (t, Raise e, self') -> self' = self.
Proof.
  unfold load_model.
  destruct (cached self X); [discriminate|].
  destruct (cuda_is_available env) as [c|e0]; [|intros [= _ _ <-]; reflexivity].
  destruct (whisper_load_model env X _) as [i|e0]; [discriminate|].
  intros [= _ _ <-]. reflexivity.
Qed.

Lemma load_model_coherent (env : Env) (self : ModelManager) (X : string)
    (cb : option (Z -> list event)) t r self' :
  load_model env self X cb = (t, r, self') -> coherent self -> coherent self'.
Proof.
  intros H Hc. destruct r as [m|e].
  - destruct (load_model_returns _ _ _ _ _ _ _ H) as (Hl & Hn & Hw).
    unfold coherent. rewrite Hl, Hn. cbn. rewrite (Hw Hc). reflexivity.
  - rewrite (load_model_raises _ _ _ _ _ _ _ H). exact Hc.
Qed.

(** C2, as the spec states it, fails: a second [load_model] of the model
    just loaded calls the progress callback not at all, rather than
    with 0 and with 100. *)
Lemma cache_hit_reports_no_progress :
  let '(_, _, self) := load_model (healthy 1) init "base" (Some Jobs.forward) in
  let '(t, r, _) := load_model (healthy 2) self "base" (Some Jobs.forward) in
  r = Return {| weights := "base"; device := "cpu"; ident := 1 |} /\
  Jobs.signals t = [] /\
  Jobs.signals t <> [progressUpdated 0; progressUpdated 100].
Proof. cbn. repeat split. discriminate. Qed.

(** C2 (amended).  When X is the currently loaded model, [load_model] X
    returns the cached model and does nothing else: it probes no device,
    loads no weights, leaves the manager as it is and does not call the
    progress callback.  Hence a [load_model] X that follows a successful
    [load_model] X is such a cache hit: of two consecutive calls only
    the first can perform a full load, and the second reports no
    progress. *)
Theorem cache_hit_fast_path (env : Env) (self : ModelManager) (X : string)
    (cb : option (Z -> list event)) (m : Model) :
  loaded_model self = Some m -> current_model_name self = Some X ->
  load_model env self X cb = ([], Return m, self) /\
  (forall env0 self0 cb0 t0 m0 self1,
      load_model env0 self0 X cb0 = (t0, Return m0, self1) ->
      load_model env self1 X cb = ([], Return m0, self1)).
Proof.
  intros Hm HX. split; [exact (load_model_hit env self X cb m Hm HX)|].
  intros env0 self0 cb0 t0 m0 self1 H.
  destruct (load_model_returns _ _ _ _ _ _ _ H) as (Hl & Hn & _).
  exact (load_model_hit env self1 X cb m0 Hl Hn).
Qed.

Lemma cache_hit_fast_path_witness :
  let loaded := {| cache_folder := "models";
                   loaded_model := Some {| weights := "base"; device := "cpu";
                                           ident := 1 |};
                   current_model_name := Some "base" |} in
  load_model (healthy 1) init "base" (Some Jobs.forward)
  = ([Emit (progressUpdated 0); CudaIsAvailable;
      WhisperLoadModel "base" "cpu"; Emit (progressUpdated 100)],
     Return {| weights := "base"; device := "cpu"; ident := 1 |}, loaded) /\
  load_model (healthy 2) loaded "base" (Some Jobs.forward)
  = ([], Return {| weights := "base"; device := "cpu"; ident := 1 |}, loaded).
Proof.
  cbv zeta. split; [reflexivity|].
  apply (cache_hit_fast_path (healthy 2) _ "base" (Some Jobs.forward)
           {| weights := "base"; device := "cpu"; ident := 1 |});
    reflexivity.
Defined.

Lemma last_cons_match {A} (x : A) (l : list A) :
  last (x :: l) = match last l with Some y => Some y | None => Some x end.
Proof. destruct l as [|y l]; [reflexivity|]. rewrite last_cons_cons.
       destruct (last (y :: l)) eqn:E; [reflexivity|].
       apply last_None in E. discriminate E. Qed.

Lemma load_seq_slot (calls : list (Env * string)) (self : ModelManager) :
  coherent self ->
  let '(rs, self') := load_seq calls self in
  loaded_model self'
    = match last (successes rs) with
      | Some m => Some m
      | None => loaded_model self
      end /\
  coherent self' /\
  cache_folder self' = cache_folder self /\
  Forall2 (fun c r => forall m, r = Return m -> weights m = c.2) calls rs.
Proof.
  revert self. induction calls as [|[env X] rest IH]; intros self Hc.
  - cbn. repeat split; [exact Hc | constructor].
  - cbn [load_seq].
    destruct (load_model env self X None) as [[t r] self1] eqn:E.
    specialize (IH self1 (load_model_coherent _ _ _ _ _ _ _ E Hc)).
    destruct (load_seq rest self1) as [rs self'].
    destruct IH as (IHl & IHc & IHf & IHall).
    assert (Hfolder : cache_folder self1 = cache_folder self).
    { destruct r as [m|e].
      - revert E. unfold load_model. destruct (cached self X).
        + intros [= _ _ <-]. reflexivity.
        + destruct (cuda_is_available env); [|discriminate].
          destruct (whisper_load_model env X _); [|discriminate].
          intros [= _ _ <-]. reflexivity.
      - rewrite (load_model_raises _ _ _ _ _ _ _ E). reflexivity. }
    split; [|split; [exact IHc|split; [congruence|]]].
    + destruct r as [m|e].
      * change (successes (Return m :: rs)) with (m :: successes rs).
        rewrite last_cons_match, IHl.
        destruct (load_model_returns _ _ _ _ _ _ _ E) as (Hl & _).
        rewrite Hl. destruct (last (successes rs)); reflexivity.
      * change (successes (Raise e :: rs)) with (successes rs).
        rewrite IHl, (load_model_raises _ _ _ _ _ _ _ E). reflexivity.
    + constructor; [|exact IHall].
      intros m ->. cbn.
      destruct (load_model_returns _ _ _ _ _ _ _ E) as (_ & _ & Hw).
      exact (Hw Hc).
Qed.

(** *** Inside a call *)

(** The statements of a call, run to the end, do what [load_model]
    does. *)
Lemma load_whole_load_model (env : Env) (self : ModelManager) (X : string)
    (cb : option (Z -> list event)) :
  load_whole env X cb self
  = let '(t, r, self') := load_model env self X cb in
    {| manager_now := self'; at_point := Exited r; happened := t |}.
Proof.
  unfold load_whole, load_model, load_begin.
  destruct (cached self X) as [m|] eqn:Hc.
  - cbn. rewrite Hc. reflexivity.
  - destruct (cuda_is_available env) as [c|e] eqn:Hcuda.
    + destruct (whisper_load_model env X (if c then "cuda" else "cpu"))
        as [i|e] eqn:Hw.
      * cbn. rewrite Hc. cbn. rewrite Hcuda. cbn. rewrite Hw. cbn.
        rewrite <- !app_assoc. reflexivity.
      * cbn. rewrite Hc. cbn. rewrite Hcuda. cbn. rewrite Hw. cbn.
        rewrite <- !app_assoc. reflexivity.
    + cbn. rewrite Hc. cbn. rewrite Hcuda. reflexivity.
Qed.

Lemma load_step_invariant (env : Env) (self : ModelManager) (X : string)
    (cb : option (Z -> list event)) (s : loading) :
  coherent self ->
  load_invariant self X s -> load_invariant self X (load_step env X cb s).
Proof.
  intros Hcoh. unfold load_invariant, load_step.
  destruct (at_point s) as [| | |dev|model|model|model|r] eqn:Hp; cbn.
  - intros ->. destruct (cached self X) as [m|] eqn:Hc; cbn.
    + exact Hcoh.
    + split; reflexivity.
  - intros H. exact H.
  - intros [-> Hc]. destruct (cuda_is_available env) as [c|e]; cbn.
    + split; [reflexivity|exact Hc].
    + exact Hcoh.
  - intros [-> Hc]. destruct (whisper_load_model env X dev) as [i|e]; cbn.
    + split; [reflexivity|]. split; [exact Hc|reflexivity].
    + exact Hcoh.
  - intros (-> & Hc & Hw). repeat split; assumption.
  - intros (Hl & Hn & Hc & Hw). repeat split; assumption.
  - intros (Hl & Hn & Hw). unfold coherent. rewrite Hl, Hn, <- Hw.
    reflexivity.
  - rewrite Hp. intros H. exact H.
Qed.

Lemma load_points (env : Env) (self : ModelManager) (X : string)
    (cb : option (Z -> list event)) (n : nat) :
  coherent self ->
  load_invariant self X (Nat.iter n (load_step env X cb) (load_begin self)).
Proof.
  intros Hcoh. induction n as [|n IH].
  - reflexivity.
  - rewrite Nat.iter_succ. apply load_step_invariant; assumption.
Qed.

Lemma cached_miss (self : ModelManager) (X : string) :
  coherent self -> current_model_name self <> Some X -> cached self X = None.
Proof.
  intros _ Hne. unfold cached. destruct (loaded_model self); [|reflexivity].
  destruct (decide _); [contradiction|reflexivity].
Qed.

Lemma cached_miss_name (self : ModelManager) (X : string) :
  coherent self -> cached self X = None -> current_model_name self <> Some X.
Proof.
  unfold coherent, cached. intros Hcoh.
  destruct (loaded_model self) as [m|].
  - destruct (decide _) as [|Hne]; [discriminate|]. intros _. exact Hne.
  - intros _. rewrite Hcoh. discriminate.
Qed.

Lemma option_list_length {A} (o : option A) :
  (length (option_list o) <= 1)%nat /\
  (length (option_list o) = 1%nat <-> is_Some o).
Proof.
  destruct o as [a|]; cbn.
  - split; [lia|]. split; [eauto|reflexivity].
  - split; [lia|]. split; [discriminate|]. intros [a H]. discriminate H.
Qed.

(** C9, as the spec states it, fails inside a call that replaces a
    model.  With "tiny" loaded, a [load_model] of "small" has, when
    [whisper.load_model] has returned at line 128 and before line 129 is
    executed, the old model in the slot and the new one in the local
    variable: two models exist.  After line 129 and before line 130 the
    slot holds the new model under the old name, so that the test of
    line 121 for "tiny" would answer the model of "small". *)
Lemma replacing_load_holds_two_models :
  let '(_, self) := load_seq [(healthy 1, "tiny")] init in
  let old := {| weights := "tiny"; device := "cpu"; ident := 1 |} in
  let new := {| weights := "small"; device := "cpu"; ident := 2 |} in
  let s4 := Nat.iter 4 (load_step (healthy 2) "small" None) (load_begin self) in
  let s5 := Nat.iter 5 (load_step (healthy 2) "small" None) (load_begin self) in
  loaded_model self = Some old /\
  at_point s4 = StoreModel new /\
  alive s4 = [old; new] /\
  ~ (length (alive s4) <= 1)%nat /\
  at_point s5 = RecordName new /\
  loaded_model (manager_now s5) = Some new /\
  current_model_name (manager_now s5) = Some "tiny" /\
  cached (manager_now s5) "tiny" = Some new.
Proof.
  vm_compute. repeat split. lia.
Qed.

(** C9 (amended).  Whatever [load_model] calls were made on the manager
    and whatever [torch] and [whisper] answered, between calls the
    manager holds at most one model, in its one slot: the model returned
    by the most recent successful call (none before the first), under
    the name that call asked for.  A further call for X, statement by
    statement, does what [load_model] does as a whole; when X is not the
    recorded name and the device probe and [whisper.load_model] answer,
    it returns the new model of X, puts it in the slot in place of the
    one held before and records X; when it raises it leaves the manager
    as it was.  At every point inside that call at most two models
    exist, and two exactly when a model was held before and
    [whisper.load_model] has returned the new one while line 129 has not
    yet overwritten the slot; the slot and the recorded name go together
    at every point but the one between lines 129 and 130, where the slot
    holds the new model of X under the name recorded before. *)
Theorem single_loaded_model (calls : list (Env * string)) (env : Env)
    (X : string) (cb : option (Z -> list event)) :
  let '(rs, self) := load_seq calls init in
  (loaded_model self = last (successes rs) /\
   current_model_name self = weights <$> last (successes rs) /\
   Forall2 (fun c r => forall m, r = Return m -> weights m = c.2) calls rs) /\
  (load_whole env X cb self
   = let '(t, r, self') := load_model env self X cb in
     {| manager_now := self'; at_point := Exited r; happened := t |}) /\
  (current_model_name self <> Some X ->
   forall (c : bool) (i : nat),
     cuda_is_available env = Return c ->
     whisper_load_model env X (if c then "cuda" else "cpu") = Return i ->
     let model := {| weights := X; device := if c then "cuda" else "cpu";
                     ident := i |} in
     load_model env self X cb
     = ((call cb 0
         ++ [CudaIsAvailable;
             WhisperLoadModel X (if c then "cuda" else "cpu")])
        ++ call cb 100,
        Return model,
        {| cache_folder := "models"; loaded_model := Some model;
           current_model_name := Some X |})) /\
  (forall t e self',
     load_model env self X cb = (t, Raise e, self') -> self' = self) /\
  (forall n : nat,
     let s := Nat.iter n (load_step env X cb) (load_begin self) in
     (length (alive s) <= 2)%nat /\
     (length (alive s) = 2%nat <->
      is_Some (loaded_model self) /\
      exists model, at_point s = StoreModel model) /\
     ((forall model, at_point s <> RecordName model) ->
      coherent (manager_now s)) /\
     (forall model, at_point s = RecordName model ->
      loaded_model (manager_now s) = Some model /\
      weights model = X /\
      current_model_name (manager_now s) = current_model_name self /\
      current_model_name self <> Some X)).
Proof.
  pose proof (load_seq_slot calls init eq_refl) as H.
  destruct (load_seq calls init) as [rs self].
  destruct H as (Hl & Hc & Hfolder & Hall).
  assert (Hslot : loaded_model self = last (successes rs)).
  { rewrite Hl. destruct (last (successes rs)); reflexivity. }
  split; [|split; [|split; [|split]]].
  - split; [exact Hslot|]. split; [|exact Hall].
    rewrite <- Hslot. exact Hc.
  - apply load_whole_load_model.
  - intros Hne c i Hcuda Hw. cbv zeta.
    unfold load_model. rewrite (cached_miss self X Hc Hne), Hcuda, Hw.
    rewrite Hfolder. reflexivity.
  - intros t e self'. apply load_model_raises.
  - intros n. cbv zeta.
    pose proof (load_points env self X cb n Hc) as Hinv.
    remember (Nat.iter n (load_step env X cb) (load_begin self)) as s eqn:Es.
    clear Es. unfold load_invariant in Hinv. unfold alive.
    destruct (option_list_length (loaded_model (manager_now s)))
      as [Hle _].
    destruct (option_list_length (loaded_model self)) as [Hle' Hone].
    destruct (at_point s) as [| | |dev|model|model|model|r] eqn:Hp.
    + subst. split; [lia|]. split; [|split; [intros _; exact Hc|discriminate]].
      split; [lia|]. intros [_ [model [=]]].
    + destruct Hinv as [-> _].
      split; [lia|]. split; [|split; [intros _; exact Hc|discriminate]].
      split; [lia|]. intros [_ [model [=]]].
    + destruct Hinv as [-> _].
      split; [lia|]. split; [|split; [intros _; exact Hc|discriminate]].
      split; [lia|]. intros [_ [model [=]]].
    + destruct Hinv as [-> _].
      split; [lia|]. split; [|split; [intros _; exact Hc|discriminate]].
      split; [lia|]. intros [_ [model [=]]].
    + destruct Hinv as (-> & Hmiss & Hw).
      rewrite length_app. cbn [length].
      split; [lia|]. split; [|split; [intros _; exact Hc|discriminate]].
      split.
      * intros Hlen. split; [apply Hone; lia|]. exists model. reflexivity.
      * intros [Hsome _]. apply Hone in Hsome. lia.
    + destruct Hinv as (Hl' & Hn' & Hmiss & Hw).
      split; [lia|]. split; [|split].
      * split; [lia|]. intros [_ [model' [=]]].
      * intros Hno. exfalso. exact (Hno model eq_refl).
      * intros model' [= <-]. repeat split; try assumption.
        apply cached_miss_name; assumption.
    + destruct Hinv as (Hl' & Hn' & Hw).
      split; [lia|]. split; [|split; [|discriminate]].
      * split; [lia|]. intros [_ [model' [=]]].
      * intros _. unfold coherent. rewrite Hl', Hn', <- Hw. reflexivity.
    + split; [lia|]. split; [|split; [intros _; exact Hinv|discriminate]].
      split; [lia|]. intros [_ [model [=]]].
Qed.

(** With "tiny" loaded, a call for "small" replaces it. *)
Lemma single_loaded_model_witness :
  let old := {| weights := "tiny"; device := "cpu"; ident := 1 |} in
  let new := {| weights := "small"; device := "cpu"; ident := 2 |} in
  load_model (healthy 2)
    {| cache_folder := "models"; loaded_model := Some old;
       current_model_name := Some "tiny" |} "small" None
  = ([CudaIsAvailable; WhisperLoadModel "small" "cpu"], Return new,
     {| cache_folder := "models"; loaded_model := Some new;
        current_model_name := Some "small" |}).
Proof.
  cbv zeta.
  pose proof (single_loaded_model [(healthy 1, "tiny")] (healthy 2) "small"
                None) as H.
  cbn in H. destruct H as (_ & _ & H & _).
  assert (Hne : Some "tiny" <> Some "small") by discriminate.
  exact (H Hne false 2%nat eq_refl eq_refl).
Defined.

End ModelCacheFacts.

(** ** The worker threads *)

Section JobsFacts.

Import ModelCache Jobs.

Variable env : Env.

Lemma step_remaining (r : running) :
  (remaining (pc (step env r)) <= pred (remaining (pc r)))%nat.
Proof.
  unfold step. destruct (pc r) eqn:E; cbn [remaining pc goto pred]; try lia.
  - destruct (load_model env _ _ _) as [[t [model|e]] m]; cbn; lia.
  - destruct (_is_interrupted (self r)); cbn; lia.
  - destruct (cuda_is_available env); cbn; lia.
  - destruct (transcribe env _ _ _); cbn; lia.
  - rewrite E. cbn. lia.
Qed.

Lemma iter_remaining (n : nat) (r : running) :
  (remaining (pc (Nat.iter n (step env) r)) <= remaining (pc r) - n)%nat.
Proof.
  induction n as [|n IH]; [cbn; lia|]. rewrite Nat.iter_succ.
  pose proof (step_remaining (Nat.iter n (step env) r)). lia.
Qed.

Lemma remaining_0 (p : point) : remaining p = 0%nat -> p = Returned.
Proof. destruct p; cbn; intros H; try discriminate H; reflexivity. Qed.

(** Every run reaches the end of [run]. *)
Lemma finish_returned (r : running) : pc (finish env r) = Returned.
Proof.
  apply remaining_0. unfold finish.
  pose proof (iter_remaining 10 r).
  assert (remaining (pc r) <= 10)%nat by (destruct (pc r); cbn; lia). lia.
Qed.

Lemma step_returned (r : running) : pc r = Returned -> step env r = r.
Proof. intros H. unfold step. rewrite H. reflexivity. Qed.

Lemma iter_returned (n : nat) (r : running) :
  pc r = Returned -> Nat.iter n (step env) r = r.
Proof.
  intros H. induction n as [|n IH]; [reflexivity|].
  rewrite Nat.iter_succ, IH. apply step_returned, H.
Qed.

Lemma iter_swap (n k : nat) (r : running) :
  Nat.iter n (step env) (Nat.iter k (step env) r)
  = Nat.iter k (step env) (Nat.iter n (step env) r).
Proof.
  rewrite <- (Nat.iter_add n k), <- (Nat.iter_add k n).
  f_equal. lia.
Qed.

Lemma finish_iter (n : nat) (r : running) :
  finish env (Nat.iter n (step env) r) = finish env r.
Proof.
  transitivity (Nat.iter n (step env) (finish env r)).
  - exact (iter_swap 10 n r).
  - exact (iter_returned n (finish env r) (finish_returned r)).
Qed.

(** *** [interrupt] against [step] *)

Lemma interrupt_flagged (r : running) :
  _is_interrupted (self r) = true -> interrupt r = r.
Proof. destruct r as [[n f b] p m t]. cbn. intros ->. reflexivity. Qed.

Lemma step_self (r : running) : self (step env r) = self r.
Proof.
  unfold step. destruct (pc r); try reflexivity.
  - destruct (load_model env _ _ _) as [[t res] m]. reflexivity.
  - destruct (_is_interrupted (self r)); reflexivity.
  - destruct (cuda_is_available env); reflexivity.
  - destruct (transcribe env _ _ _); reflexivity.
Qed.

(** Line 184 is the only statement that reads the flag. *)
Lemma step_interrupt (r : running) :
  (forall model, pc r <> CheckInterrupted model) ->
  step env (interrupt r) = interrupt (step env r).
Proof.
  intros Hpc. unfold step. cbn [pc interrupt model_manager self model_name file_path].
  destruct (pc r) eqn:E; try reflexivity.
  - destruct (load_model env _ _ _) as [[t res] m]. reflexivity.
  - exfalso. exact (Hpc _ eq_refl).
  - destruct (cuda_is_available env); reflexivity.
  - destruct (transcribe env _ _ _); reflexivity.
Qed.

Lemma iter_interrupt (k : nat) (r : running) :
  (forall j model, (j < k)%nat ->
      pc (Nat.iter j (step env) r) <> CheckInterrupted model) ->
  Nat.iter k (step env) (interrupt r) = interrupt (Nat.iter k (step env) r).
Proof.
  induction k as [|k IH]; intros H; [reflexivity|].
  rewrite !Nat.iter_succ, IH by (intros j model Hj; apply H; lia).
  apply step_interrupt. intros model. apply H. lia.
Qed.

Lemma exec_flagged (sched : list move) (r : running) :
  _is_interrupted (self r) = true ->
  exists n, exec env sched r = Nat.iter n (step env) r.
Proof.
  revert r. induction sched as [|[|] rest IH]; intros r Hf.
  - exists 0%nat. reflexivity.
  - destruct (IH (step env r)) as [n Hn]; [rewrite step_self; exact Hf|].
    exists (S n). rewrite Nat.iter_succ_r. exact Hn.
  - destruct (IH r Hf) as [n Hn]. exists n.
    cbn [exec fold_left play]. rewrite (interrupt_flagged r Hf). exact Hn.
Qed.

Lemma exec_uninterrupted (sched : list move) (r : running) :
  steps_before_interrupt sched = None ->
  exec env sched r = Nat.iter (length sched) (step env) r.
Proof.
  revert r. induction sched as [|[|] rest IH]; intros r H.
  - reflexivity.
  - cbn in H. destruct (steps_before_interrupt rest); [discriminate H|].
    cbn [length]. rewrite Nat.iter_succ_r. exact (IH (step env r) eq_refl).
  - discriminate H.
Qed.

Lemma exec_interrupted (sched : list move) (k : nat) (r : running) :
  steps_before_interrupt sched = Some k ->
  exists n,
    exec env sched r
    = Nat.iter n (step env) (interrupt (Nat.iter k (step env) r)).
Proof.
  revert k r. induction sched as [|[|] rest IH]; intros k r H.
  - discriminate H.
  - cbn in H. destruct (steps_before_interrupt rest) as [k'|] eqn:E;
      [|discriminate H].
    injection H as <-. destruct (IH k' (step env r) eq_refl) as [n Hn].
    exists n. rewrite Nat.iter_succ_r. exact Hn.
  - injection H as <-.
    apply (exec_flagged rest (interrupt r)). reflexivity.
Qed.

(** *** The machine computes [run] *)

Lemma finish_start (t : TranscriptionThread) (m : ModelManager) :
  observable (finish env (start t m))
  = run_reading (_is_interrupted t) env t m.
Proof.
  unfold observable, finish, start, run_reading.
  cbn -[load_model].
  destruct (load_model env m (model_name t) (Some forward))
    as [[t1 [model|e]] m1]; cbn -[load_model].
  - destruct (_is_interrupted t); cbn -[load_model].
    + rewrite <- ?app_assoc. reflexivity.
    + destruct (cuda_is_available env) as [use_fp16|e]; cbn -[load_model].
      * destruct (transcribe env model (file_path t) use_fp16) as [result|e];
          cbn -[load_model]; rewrite <- ?app_assoc; reflexivity.
      * rewrite <- ?app_assoc. reflexivity.
  - rewrite <- ?app_assoc. reflexivity.
Qed.

Lemma observable_interrupt (r : running) :
  observable (interrupt r) = observable r.
Proof. reflexivity. Qed.

Lemma early_points (j : nat) (t : TranscriptionThread) (m : ModelManager)
    (model : Model) :
  (j < 3)%nat ->
  pc (Nat.iter j (step env) (start t m)) <> CheckInterrupted model.
Proof.
  intros Hj. destruct j as [|[|[|j]]]; [| | |lia]; cbn -[load_model].
  - discriminate.
  - discriminate.
  - destruct (load_model env m (model_name t) (Some forward))
      as [[t1 [model'|e]] m1]; discriminate.
Qed.

Lemma late_points (j : nat) (r : running) (model : Model) :
  (remaining (pc r) <= 6)%nat ->
  pc (Nat.iter j (step env) r) <> CheckInterrupted model.
Proof.
  intros Hr Hpc. pose proof (iter_remaining j r) as H.
  rewrite Hpc in H. cbn in H. lia.
Qed.

(** An [interrupt()] that arrives while one of the first three
    statements is next is seen by line 184. *)
Lemma interrupted_early (k : nat) (t : TranscriptionThread)
    (m : ModelManager) :
  (k <= 3)%nat ->
  observable (finish env (interrupt (Nat.iter k (step env) (start t m))))
  = run_reading true env t m.
Proof.
  intros Hk.
  rewrite <- (iter_interrupt k (start t m))
    by (intros j model Hj; apply early_points; lia).
  rewrite finish_iter.
  exact (finish_start
           {| model_name := model_name t; file_path := file_path t;
              _is_interrupted := true |} m).
Qed.

Lemma finish_interrupt (r : running) :
  (remaining (pc r) <= 6)%nat ->
  finish env (interrupt r) = interrupt (finish env r).
Proof.
  intros H.
  exact (iter_interrupt 10 r (fun j model _ => late_points j r model H)).
Qed.

(** One that arrives later changes nothing but the flag. *)
Lemma interrupted_late (k : nat) (t : TranscriptionThread)
    (m : ModelManager) :
  (4 <= k)%nat ->
  observable (finish env (interrupt (Nat.iter k (step env) (start t m))))
  = run_reading (_is_interrupted t) env t m.
Proof.
  intros Hk.
  assert (H : (remaining (pc (Nat.iter k (step env) (start t m))) <= 6)%nat).
  { pose proof (iter_remaining k (start t m)) as H.
    change (remaining (pc (start t m))) with 10%nat in H. lia. }
  rewrite (finish_interrupt _ H), observable_interrupt, finish_iter.
  apply finish_start.
Qed.

(** Under every schedule the run leaves what [run] leaves when line
    184 reads [True] exactly if an [interrupt()] came in time. *)
Lemma run_as_function (sched : list move) (t : TranscriptionThread)
    (m : ModelManager) :
  observable (transcription_run env sched t m)
  = run_reading (_is_interrupted t || interrupted_before_check sched)
                env t m.
Proof.
  unfold transcription_run, interrupted_before_check.
  destruct (steps_before_interrupt sched) as [k|] eqn:E.
  - destruct (exec_interrupted sched k (start t m) E) as [n ->].
    rewrite finish_iter.
    destruct (Nat.leb_spec k 3) as [Hk|Hk].
    + rewrite orb_true_r. apply interrupted_early, Hk.
    + rewrite orb_false_r. apply interrupted_late. lia.
  - rewrite (exec_uninterrupted sched (start t m) E), finish_iter.
    rewrite orb_false_r. apply finish_start.
Qed.

Lemma observable_fst (r : running) (o : list event * ModelManager) :
  observable r = o -> trace r = o.1.
Proof. intros <-. reflexivity. Qed.

Lemma run_trace (sched : list move) (t : TranscriptionThread)
    (m : ModelManager) :
  trace (transcription_run env sched t m)
  = (run_reading (_is_interrupted t || interrupted_before_check sched)
                 env t m).1.
Proof. apply observable_fst, run_as_function. Qed.

(** *** Shape of the traces *)

Lemma signals_app (a b : list event) :
  signals (a ++ b) = signals a ++ signals b.
Proof. apply omap_app. Qed.

Lemma load_model_trace (self : ModelManager) (X : string) t r self' :
  load_model env self X (Some forward) = (t, r, self') ->
  no_recognizer_call t = true /\
  match r with
  | Return _ =>
      signals t = [] \/ signals t = [progressUpdated 0; progressUpdated 100]
  | Raise _ => signals t = [progressUpdated 0]
  end.
Proof.
  unfold load_model. destruct (cached self X).
  - intros [= <- <- <-]. split; [reflexivity|]. left. reflexivity.
  - destruct (cuda_is_available env) as [c|e].
    + destruct (whisper_load_model env X _) as [i|e];
        intros [= <- <- <-]; split; try reflexivity.
      right. reflexivity.
    + intros [= <- <- <-]. split; reflexivity.
Qed.

Local Ltac shape pre post :=
  exists pre, post; eexists;
  split; [reflexivity|]; split; [reflexivity|]; split; [reflexivity|];
  split; [reflexivity|]; split; [reflexivity|]; try split; reflexivity.

Lemma run_reading_shape (flag : bool) (t : TranscriptionThread)
    (m : ModelManager) :
  transcription_shape env t m flag (signals (run_reading flag env t m).1).
Proof.
  unfold run_reading, transcription_shape.
  destruct (load_model env m (model_name t) (Some forward))
    as [[t1 res] m1] eqn:E.
  destruct (load_model_trace _ _ _ _ _ E) as [_ Hsig].
  destruct res as [model|e].
  - destruct flag.
    + cbn [fst]. rewrite !signals_app.
      destruct Hsig as [-> | ->]; cbn.
      * shape [0%Z; 100%Z] (@nil Z).
      * shape [0%Z; 0%Z; 100%Z; 100%Z] (@nil Z).
    + destruct (cuda_is_available env) as [use_fp16|e].
      * destruct (transcribe env model (file_path t) use_fp16)
          as [result|e]; cbn [fst]; rewrite !signals_app;
          destruct Hsig as [-> | ->]; cbn.
        -- shape [0%Z; 100%Z] [50%Z; 100%Z].
        -- shape [0%Z; 0%Z; 100%Z; 100%Z] [50%Z; 100%Z].
        -- shape [0%Z; 100%Z] [50%Z].
        -- shape [0%Z; 0%Z; 100%Z; 100%Z] [50%Z].
      * cbn [fst]. rewrite !signals_app.
        destruct Hsig as [-> | ->]; cbn.
        -- shape [0%Z; 100%Z] [50%Z].
        -- shape [0%Z; 0%Z; 100%Z; 100%Z] [50%Z].
  - cbn [fst]. rewrite !signals_app, Hsig. cbn.
    shape [0%Z; 0%Z] (@nil Z).
Qed.

Lemma download_run_shape (d : DownloaderThread.t) (m : ModelManager) :
  download_shape env d m (signals (DownloaderThread.run env d m).1).
Proof.
  unfold DownloaderThread.run, download_shape.
  destruct (load_model env m (DownloaderThread.model_name d) (Some forward))
    as [[t1 res] m1] eqn:E.
  destruct (load_model_trace _ _ _ _ _ E) as [_ Hsig].
  destruct res as [model|e]; cbn [fst]; rewrite !signals_app.
  - destruct Hsig as [-> | ->]; cbn.
    + exists [0%Z]. eexists. repeat split.
    + exists [0%Z; 0%Z; 100%Z]. eexists. repeat split.
  - rewrite Hsig. cbn. exists [0%Z; 0%Z]. eexists. repeat split.
Qed.

(** C1, as the spec states it, fails: a transcription that is not
    interrupted reports 100 when the model is ready and 50 after it. *)
Lemma transcription_progress_drops :
  let r := transcription_run (healthy 1) []
             (new_transcription "base" "talk.wav") init in
  signals (trace r)
  = [progressUpdated 0; progressUpdated 0; progressUpdated 100;
     progressUpdated 100; progressUpdated 50; progressUpdated 100;
     transcriptionFinished "ciao"] /\
  nondecreasing (percentages (signals (trace r))) = false.
Proof. vm_compute. split; reflexivity. Qed.

(** C1 (amended).  In every run of a Download job the progress
    percentages are non-decreasing: they are the 0 of line 155 followed
    by what [load_model] forwards, and the terminal signal tells whether
    the load returned.  In every run of a Transcribe job, under every
    interleaving with [interrupt()], the percentages are non-decreasing
    up to the model-ready milestone, which is the 100 of line 183
    whenever the load returns; a run that goes on to the inference (the
    load returned and line 184 read no interruption) then reports 50
    and, exactly when the inference succeeds, 100 and the text, a run
    that fails or is interrupted ending with the error of that path.  In
    every run of either kind all percentages lie between 0 and 100 and
    exactly one terminal signal is emitted, after every progress signal
    and with nothing after it. *)
Theorem job_event_order :
  (forall (d : DownloaderThread.t) (m : ModelManager),
      download_shape env d m (signals (DownloaderThread.run env d m).1)) /\
  (forall (sched : list move) (t : TranscriptionThread) (m : ModelManager),
      pc (transcription_run env sched t m) = Returned /\
      transcription_shape env t m
        (_is_interrupted t || interrupted_before_check sched)
        (signals (trace (transcription_run env sched t m)))).
Proof.
  split; [exact download_run_shape|].
  intros sched t m.
  split; [unfold transcription_run; apply finish_returned|].
  rewrite (run_trace sched t m). apply run_reading_shape.
Qed.

(** C6, as the spec states it, fails: with the flag set from the very
    start, a run whose model load raises ends with the error of the load,
    not with the interruption; and a flag set after line 184 but before
    the recognizer is called is not seen. *)
Lemma interrupt_not_always_honoured :
  let t := new_transcription "base" "talk.wav" in
  let r1 := transcription_run offline [Interrupt] t init in
  let late := [Step; Step; Step; Step; Interrupt] in
  let r2 := transcription_run (healthy 1) late t init in
  (signals (trace r1)
   = [progressUpdated 0; progressUpdated 0; errorOccurred "download failed"] /\
   last (signals (trace r1)) <> Some (errorOccurred interrupted_msg)) /\
  (pc (exec (healthy 1) late (start t init))
   = EmitPreTranscribe {| weights := "base"; device := "cpu"; ident := 1 |} /\
   _is_interrupted (self (exec (healthy 1) late (start t init))) = true /\
   last (signals (trace r2)) = Some (transcriptionFinished "ciao") /\
   no_recognizer_call (trace r2) = false).
Proof.
  cbv zeta. split; [split|].
  - vm_compute. reflexivity.
  - vm_compute. discriminate.
  - vm_compute. repeat split.
Qed.

(** C6 (amended).  If [interrupt()] is called on a new transcription
    thread before line 184 reads the flag, the recognizer is not called,
    and the run ends with the error "Trascrizione interrotta." when the
    model load has returned, with the error of the load when it has
    raised.  If [interrupt()] is called only after line 184, or never,
    the run leaves the events and the manager of the run that is not
    interrupted. *)
Theorem interrupt_boundary (sched : list move) (name path : string)
    (m : ModelManager) :
  let t := new_transcription name path in
  let r := transcription_run env sched t m in
  (interrupted_before_check sched = true ->
   no_recognizer_call (trace r) = true /\
   forall t1 res m1,
     load_model env m name (Some forward) = (t1, res, m1) ->
     signals (trace r)
     = [progressUpdated 0] ++ signals t1
       ++ match res with
          | Return _ => [progressUpdated 100; errorOccurred interrupted_msg]
          | Raise e => [errorOccurred (str e)]
          end) /\
  (interrupted_before_check sched = false ->
   observable r = observable (transcription_run env [] t m)).
Proof.
  intros t r. subst r. split; intros Hb.
  - rewrite (run_trace sched t m), Hb. cbn [orb _is_interrupted t new_transcription].
    unfold run_reading. cbn [model_name t new_transcription].
    destruct (load_model env m name (Some forward)) as [[t1 res] m1] eqn:E.
    destruct (load_model_trace _ _ _ _ _ E) as [Hno _].
    split.
    + unfold no_recognizer_call in *.
      destruct res; cbn [fst]; rewrite ?forallb_app, Hno; reflexivity.
    + intros t1' res' m1' [= <- <- <-].
      destruct res; cbn [fst]; rewrite !signals_app, <- ?app_assoc;
        reflexivity.
  - rewrite (run_as_function sched t m), (run_as_function [] t m), Hb.
    reflexivity.
Qed.

End JobsFacts.

Section JobsWitnesses.

Import ModelCache Jobs.

Lemma interrupt_boundary_witness :
  let t := new_transcription "base" "talk.wav" in
  let late := [Step; Step; Step; Step; Interrupt] in
  signals (trace (transcription_run (healthy 1) [Step; Interrupt] t init))
  = [progressUpdated 0; progressUpdated 0; progressUpdated 100;
     progressUpdated 100; errorOccurred interrupted_msg] /\
  observable (transcription_run (healthy 1) late t init)
  = observable (transcription_run (healthy 1) [] t init).
Proof.
  cbv zeta. split.
  - destruct (interrupt_boundary (healthy 1) [Step; Interrupt]
                "base" "talk.wav" init) as [[_ Hearly] _]; [reflexivity|].
    exact (Hearly _ _ _ eq_refl).
  - destruct (interrupt_boundary (healthy 1)
                [Step; Step; Step; Step; Interrupt]
                "base" "talk.wav" init) as [_ Hlate].
    exact (Hlate eq_refl).
Defined.

End JobsWitnesses.

(** ** The window *)

Section GuiFacts.

Import ModelCache Gui.

Lemma Qgtb_lt (x y : Q) : Qgtb x y = true <-> (y < x)%Q.
Proof.
  unfold Qgtb. rewrite negb_true_iff. apply Qle_bool_false.
Qed.

Lemma advisories_showMessage (w : MainWindow) :
  advisories (showMessage stuck_msg w) = S (advisories w).
Proof.
  unfold advisories. cbn [status_bar showMessage].
  rewrite filter_app, length_app, filter_cons_True by reflexivity.
  rewrite filter_nil. cbn [length]. lia.
Qed.

Lemma check_progress_stuck_advisories (now : Q) (w : MainWindow) :
  advisories (check_progress_stuck now w)
  = (advisories w
     + if Qgtb (now - last_progress_update w) 20 then 1 else 0)%nat.
Proof.
  unfold check_progress_stuck.
  destruct (Qgtb (now - last_progress_update w) 20).
  - rewrite advisories_showMessage. lia.
  - lia.
Qed.

Lemma check_progress_stuck_keeps (now : Q) (w : MainWindow) :
  last_progress_update (check_progress_stuck now w) = last_progress_update w /\
  job_active (check_progress_stuck now w) = job_active w /\
  progress_bar (check_progress_stuck now w) = progress_bar w.
Proof.
  unfold check_progress_stuck.
  destruct (Qgtb (now - last_progress_update w) 20); repeat split.
Qed.

(** C3, as the spec states it, fails: in a window that never started a
    job, the 25 timeouts of the first 25 seconds show the advisory five
    times, once per timeout after the twentieth second. *)
Lemma advisory_without_job_at_every_tick :
  let w := window (new_window Recommend.laptop 0 ∅).2 in
  job_active w = false /\
  job_active (ticks w (every_second 0 25)) = false /\
  advisories (ticks w (every_second 0 20)) = 0%nat /\
  advisories (ticks w (every_second 0 21)) = 1%nat /\
  advisories (ticks w (every_second 0 25)) = 5%nat.
Proof. vm_compute. repeat split. Qed.

(** C3 (amended).  A timeout of the monitor shows the advisory exactly
    when more than 20 seconds have passed since the last progress signal
    (or since the window was created), whether a job is active or not;
    so do all later timeouts, one advisory each, until a progress signal
    sets the time anew.  The timeout changes neither that time nor the
    jobs nor the progress bar. *)
Theorem stall_advisory_at_overdue_ticks (w : MainWindow) (times : list Q) :
  advisories (ticks w times)
    = (advisories w + length (overdue w times))%nat /\
  last_progress_update (ticks w times) = last_progress_update w /\
  job_active (ticks w times) = job_active w /\
  (forall now,
      In now (overdue w times) <->
      In now times /\ (20 < now - last_progress_update w)%Q) /\
  (forall now value,
      last_progress_update (dispatch w (DownloadProgress now value)) = now /\
      last_progress_update (dispatch w (TranscriptionProgress now value)) = now).
Proof.
  split; [|split; [|split; [|split]]].
  - unfold ticks, overdue. revert w.
    induction times as [|now rest IH]; intros w; [cbn; lia|].
    cbn [fmap list_fmap fold_left dispatch List.filter].
    rewrite IH, check_progress_stuck_advisories.
    destruct (check_progress_stuck_keeps now w) as (-> & _).
    destruct (Qgtb (now - last_progress_update w) 20); cbn [length]; lia.
  - unfold ticks. revert w.
    induction times as [|now rest IH]; intros w; [reflexivity|].
    cbn [fmap list_fmap fold_left dispatch]. rewrite IH.
    apply check_progress_stuck_keeps.
  - unfold ticks. revert w.
    induction times as [|now rest IH]; intros w; [reflexivity|].
    cbn [fmap list_fmap fold_left dispatch]. rewrite IH.
    apply check_progress_stuck_keeps.
  - intros now. unfold overdue. rewrite filter_In, Qgtb_lt. reflexivity.
  - intros now value. split; reflexivity.
Qed.

(** C5: the code marks the entry that is current in [combo_available]
    when the download ends, not the model of the thread.  On an empty
    disk the window offers "tiny" first; the user starts its download,
    and the marker written at the end is that of "tiny" if the selection
    is left alone, but that of "base" if the user moves the selection to
    the second entry while the worker runs. *)
Theorem download_marks_current_selection :
  let a := (new_window Recommend.laptop 0 ∅).2 in
  let started := download_model a in
  let alone :=
    (download_session Recommend.laptop (healthy 1) 1 (fun w => w) a).2 in
  let moved :=
    (download_session Recommend.laptop (healthy 1) 1 (select_available 1) a).2 in
  (Jobs.DownloaderThread.model_name ∘ thread
     <$> downloader_thread (window started))
    = Some "tiny" /\
  is_model_downloaded (manager alone) "tiny" (disk alone) = true /\
  loaded_model (manager moved)
    = Some {| weights := "tiny"; device := "cpu"; ident := 1 |} /\
  is_model_downloaded (manager moved) "tiny" (disk moved) = false /\
  is_model_downloaded (manager moved) "base" (disk moved) = true /\
  items (combo_downloaded (window moved)) = ["base"].
Proof. vm_compute. repeat split. Qed.

End GuiFacts.

(* ===================================================================== *)
(** * Further properties of the code *)
(* ===================================================================== *)

(** ** Paths *)

Section PathFacts.

Lemma string_of_list_ascii_app (a b : list ascii) :
  string_of_list_ascii (a ++ b)
  = string_of_list_ascii a +:+ string_of_list_ascii b.
Proof.
  induction a as [|c a IH]; [reflexivity|].
  change (String c (string_of_list_ascii (a ++ b))
          = String c (string_of_list_ascii a +:+ string_of_list_ascii b)).
  f_equal. exact IH.
Qed.

Lemma list_ascii_of_string_app (s t : string) :
  list_ascii_of_string (s +:+ t)
  = list_ascii_of_string s ++ list_ascii_of_string t.
Proof.
  induction s as [|c s IH]; [reflexivity|].
  change (c :: list_ascii_of_string (s +:+ t)
          = c :: (list_ascii_of_string s ++ list_ascii_of_string t)).
  f_equal. exact IH.
Qed.

Lemma rfind_from_app (c : ascii) (a b : list ascii) (i last : Z) :
  rfind_from c (a ++ b) i last
  = rfind_from c b (i + Z.of_nat (length a)) (rfind_from c a i last).
Proof.
  revert i last. induction a as [|x a IH]; intros i last; cbn [app rfind_from length].
  - f_equal. lia.
  - rewrite IH. f_equal. lia.
Qed.

Lemma rfind_from_range (c : ascii) (l : list ascii) (i last : Z) :
  rfind_from c l i last = last \/
  (i <= rfind_from c l i last < i + Z.of_nat (length l))%Z.
Proof.
  revert i last. induction l as [|x l IH]; intros i last; cbn [rfind_from length].
  - left. reflexivity.
  - destruct (IH (i + 1)%Z (if Ascii.eqb x c then i else last)) as [H|H].
    + rewrite H. destruct (Ascii.eqb x c); [right; lia | left; reflexivity].
    + right. lia.
Qed.

Lemma rfind_bounds (c : ascii) (l : list ascii) :
  (-1 <= rfind c l < Z.of_nat (length l))%Z.
Proof.
  unfold rfind. destruct (rfind_from_range c l 0 (-1)) as [H|H]; lia.
Qed.

(** The last occurrence lies in a prefix that reaches beyond it. *)
Lemma rfind_take (c : ascii) (l : list ascii) (n : nat) :
  (rfind c l < Z.of_nat n)%Z -> (n <= length l)%nat ->
  rfind c (take n l) = rfind c l.
Proof.
  intros Hlt Hn. unfold rfind in *.
  rewrite <- (take_drop n l) in Hlt at 1.
  rewrite <- (take_drop n l) at 2.
  rewrite rfind_from_app in Hlt |- *.
  rewrite length_take_le in Hlt |- * by exact Hn.
  destruct (rfind_from_range c (drop n l) (0 + Z.of_nat n)
              (rfind_from c (take n l) 0 (-1))) as [H|H].
  - symmetry. exact H.
  - lia.
Qed.

Lemma append_empty_r (s : string) : s +:+ "" = s.
Proof.
  induction s as [|c s IH]; [reflexivity|].
  change (String c (s +:+ "") = String c s). f_equal. exact IH.
Qed.

(** The two ways [os.path.splitext] answers. *)
Lemma splitext_cases (p : string) :
  splitext p = (p, "") \/
  (let l := list_ascii_of_string p in
   let sep := rfind "/" l in
   let dot := rfind "." l in
   (sep < dot)%Z /\
   has_non_dot "." (take (Z.to_nat dot - Z.to_nat (sep + 1))
                         (drop (Z.to_nat (sep + 1)) l)) = true /\
   splitext p = (string_of_list_ascii (take (Z.to_nat dot) l),
                 string_of_list_ascii (drop (Z.to_nat dot) l))).
Proof.
  unfold splitext, _splitext. cbv zeta.
  destruct (Z.ltb_spec (rfind "/" (list_ascii_of_string p))
                       (rfind "." (list_ascii_of_string p))) as [Hlt|Hge];
    [|left; reflexivity].
  destruct (has_non_dot "." _) eqn:Hname; [|left; reflexivity].
  right. split; [exact Hlt|]. split; reflexivity.
Qed.

(** Root and extension make up the path. *)
Lemma splitext_concat (p : string) :
  (splitext p).1 +:+ (splitext p).2 = p.
Proof.
  destruct (splitext_cases p) as [-> | (_ & _ & ->)]; cbn [fst snd].
  - apply append_empty_r.
  - rewrite <- string_of_list_ascii_app, take_drop.
    apply string_of_list_ascii_of_string.
Qed.

(** Putting [".wav"] in the place of an extension gives a path whose
    extension is [".wav"] and whose root is the same. *)
Lemma splitext_wav (p : string) :
  (splitext p).2 <> "" ->
  splitext ((splitext p).1 +:+ ".wav") = ((splitext p).1, ".wav").
Proof.
  destruct (splitext_cases p) as [-> | (Hlt & Hname & ->)]; cbn [fst snd];
    [intros H; contradiction|]. intros _.
  set (l := list_ascii_of_string p) in *.
  pose proof (rfind_bounds "/" l) as Hsep.
  pose proof (rfind_bounds "." l) as Hdot.
  set (sep := rfind "/" l) in *. set (dot := rfind "." l) in *.
  assert (Hn : (Z.to_nat dot <= length l)%nat) by lia.
  set (root := take (Z.to_nat dot) l).
  assert (Hlen : length root = Z.to_nat dot)
    by (unfold root; apply length_take_le, Hn).
  set (w := list_ascii_of_string ".wav").
  assert (Hl' : list_ascii_of_string (string_of_list_ascii root +:+ ".wav")
                = root ++ w).
  { rewrite list_ascii_of_string_app, list_ascii_of_string_of_list_ascii.
    reflexivity. }
  assert (Hdot' : rfind "." (root ++ w) = dot).
  { unfold rfind. rewrite rfind_from_app, Hlen. cbn. lia. }
  assert (Hsep' : rfind "/" (root ++ w) = sep).
  { unfold rfind. rewrite rfind_from_app, Hlen. cbn.
    change (rfind_from "/" root 0 (-1)) with (rfind "/" root).
    unfold root. apply rfind_take; [fold sep; lia | exact Hn]. }
  unfold splitext, _splitext. cbv zeta. rewrite Hl', Hdot', Hsep'.
  destruct (Z.ltb_spec sep dot) as [_|Hge]; [|lia].
  assert (Hname' :
    take (Z.to_nat dot - Z.to_nat (sep + 1))
         (drop (Z.to_nat (sep + 1)) (root ++ w))
    = take (Z.to_nat dot - Z.to_nat (sep + 1))
           (drop (Z.to_nat (sep + 1)) l)).
  { rewrite drop_app_le by lia.
    rewrite take_app_le by (rewrite length_drop; lia).
    unfold root. rewrite !take_drop_commute.
    replace (Z.to_nat (sep + 1) + (Z.to_nat dot - Z.to_nat (sep + 1)))%nat
      with (Z.to_nat dot) by lia.
    rewrite take_take. rewrite Nat.min_id. reflexivity. }
  rewrite Hname', Hname.
  rewrite <- Hlen, take_app_length, drop_app_length.
  reflexivity.
Qed.

End PathFacts.

(** ** The format normalizer, further *)

Section NormalizerMore.

Import Normalizer.

Lemma append_inj_r (s a b : string) : s +:+ a = s +:+ b -> a = b.
Proof.
  induction s as [|c s IH]; intros H; [exact H|].
  apply IH. injection H as H. exact H.
Qed.

Lemma video_ext_not_empty (ext : string) : lower ext ∈ video_ext -> ext <> "".
Proof.
  intros H ->. revert H. apply (bool_decide_unpack _). vm_compute. exact I.
Qed.

Lemma wav_is_audio : lower ".wav" ∈ audio_ext.
Proof. apply (bool_decide_unpack _). vm_compute. exact I. Qed.

Lemma wav_is_not_video (ext : string) : lower ext ∈ video_ext -> ext <> ".wav".
Proof.
  intros H ->. revert H. apply (bool_decide_unpack _). vm_compute. exact I.
Qed.

(** X1.  A video that [ffmpeg] converts is answered by the path of the video
    with [".wav"] in the place of its extension: the two paths share the
    root, the input is root and extension put together, and the output
    path is never the input path, so [ffmpeg -y] does not write over the
    video. *)
Theorem video_conversion_replaces_extension
    (which : string -> option string) (subprocess_run : list string -> Z)
    (file_path tool : string) :
  which "ffmpeg" = Some tool ->
  lower (splitext file_path).2 ∈ video_ext ->
  let root := (splitext file_path).1 in
  subprocess_run ["ffmpeg"; "-y"; "-i"; file_path; root +:+ ".wav"] = 0%Z ->
  convert_file_if_needed which subprocess_run file_path
    = Return (Some (root +:+ ".wav")) /\
  file_path = root +:+ (splitext file_path).2 /\
  root +:+ ".wav" <> file_path.
Proof.
  intros Hw Hv root Hrun. subst root.
  split; [|split].
  - unfold convert_file_if_needed. rewrite Hw.
    destruct (decide _) as [Ha|_]; [exfalso; exact (video_not_audio _ Hv Ha)|].
    destruct (decide _) as [_|Hn]; [|contradiction].
    rewrite Hrun. reflexivity.
  - symmetry. apply splitext_concat.
  - intros Heq. rewrite <- (splitext_concat file_path) in Heq at 2.
    apply append_inj_r in Heq. symmetry in Heq.
    exact (wav_is_not_video _ Hv Heq).
Qed.

Lemma video_conversion_replaces_extension_witness :
  convert_file_if_needed (fun _ => Some "/usr/bin/ffmpeg") (fun _ => 0%Z)
                         "/home/u/Talk.v2.MKV"
  = Return (Some "/home/u/Talk.v2.wav").
Proof.
  refine (proj1 (video_conversion_replaces_extension
                   (fun _ => Some "/usr/bin/ffmpeg") (fun _ => 0%Z)
                   "/home/u/Talk.v2.MKV" "/usr/bin/ffmpeg" eq_refl _ eq_refl)).
  apply (bool_decide_unpack _). vm_compute. exact I.
Defined.

Lemma convert_result_is_audio
    (which : string -> option string) (subprocess_run : list string -> Z)
    (file_path resolved : string) :
  convert_file_if_needed which subprocess_run file_path
    = Return (Some resolved) ->
  lower (splitext resolved).2 ∈ audio_ext.
Proof.
  unfold convert_file_if_needed.
  destruct (which "ffmpeg") as [tool|]; [|discriminate].
  destruct (decide (lower (splitext file_path).2 ∈ audio_ext)) as [Ha|Ha].
  - intros [= <-]. exact Ha.
  - destruct (decide (lower (splitext file_path).2 ∈ video_ext)) as [Hv|Hv];
      [|discriminate].
    cbv zeta. destruct (subprocess_run _ =? 0)%Z; [|discriminate].
    intros [= <-].
    rewrite (splitext_wav file_path (video_ext_not_empty _ Hv)).
    exact wav_is_audio.
Qed.

(** X2.  Whatever path [convert_file_if_needed] returns has an audio
    extension, so a second call on it returns it unchanged, without
    looking at the exit status of any process. *)
Theorem normalizer_returns_audio_path
    (which : string -> option string)
    (subprocess_run subprocess_run' : list string -> Z)
    (file_path resolved : string) :
  convert_file_if_needed which subprocess_run file_path
    = Return (Some resolved) ->
  lower (splitext resolved).2 ∈ audio_ext /\
  convert_file_if_needed which subprocess_run' resolved
    = Return (Some resolved).
Proof.
  intros H.
  pose proof (convert_result_is_audio _ _ _ _ H) as Ha.
  split; [exact Ha|].
  unfold convert_file_if_needed in H |- *.
  destruct (which "ffmpeg") as [tool|]; [|discriminate H].
  destruct (decide (lower (splitext resolved).2 ∈ audio_ext)) as [_|Hn];
    [reflexivity|contradiction].
Qed.

Lemma normalizer_returns_audio_path_witness :
  convert_file_if_needed (fun _ => Some "/usr/bin/ffmpeg") (fun _ => 1%Z)
                         "/home/u/Talk.v2.wav"
  = Return (Some "/home/u/Talk.v2.wav").
Proof.
  refine (proj2 (normalizer_returns_audio_path
                   (fun _ => Some "/usr/bin/ffmpeg") (fun _ => 0%Z)
                   (fun _ => 1%Z) "/home/u/Talk.v2.MKV"
                   "/home/u/Talk.v2.wav" _)).
  vm_compute. reflexivity.
Defined.

End NormalizerMore.

(** ** The marker files, further *)

Section MarkerFacts.

Import ModelCache.

Lemma append_inj_l (a b s : string) : a +:+ s = b +:+ s -> a = b.
Proof.
  intros H. apply (f_equal list_ascii_of_string) in H.
  rewrite !list_ascii_of_string_app in H. apply app_inv_tail in H.
  apply (f_equal string_of_list_ascii) in H.
  rewrite !string_of_list_ascii_of_string in H. exact H.
Qed.

Lemma join_models (b : string) :
  join "models" b = if startswith_slash b then b else "models/" +:+ b.
Proof. unfold join. destruct (startswith_slash b); reflexivity. Qed.

Lemma startswith_slash_append (X s : string) :
  X <> "" -> startswith_slash (X +:+ s) = startswith_slash X.
Proof. destruct X as [|x X]; [intros H; contradiction|reflexivity]. Qed.

Lemma startswith_slash_head (X : string) :
  startswith_slash X = true -> exists X', X = String "/" X'.
Proof.
  destruct X as [|x X]; [discriminate|]. cbn [startswith_slash].
  destruct (Ascii.eqb_spec x "/") as [->|_]; [|discriminate].
  intros _. exists X. reflexivity.
Qed.

(** Different names have different marker paths, as strings. *)
Lemma model_path_inj (self : ModelManager) (X Y : string) :
  cache_folder self = "models" ->
  model_path self X = model_path self Y -> X = Y.
Proof.
  intros Hf. unfold model_path. rewrite Hf, !join_models.
  destruct (startswith_slash (X +:+ ".model")) eqn:HX,
           (startswith_slash (Y +:+ ".model")) eqn:HY; intros H.
  - exact (append_inj_l X Y ".model" H).
  - apply startswith_slash_head in HX as [X' HX]. rewrite HX in H.
    discriminate H.
  - apply startswith_slash_head in HY as [Y' HY]. rewrite HY in H.
    discriminate H.
  - apply append_inj_r in H. exact (append_inj_l X Y ".model" H).
Qed.

Lemma marked_answer (self : ModelManager) (X Y : string) (disk : files) :
  cache_folder self = "models" ->
  is_model_downloaded self Y (mark_model_as_downloaded self X disk)
  = bool_decide (X = Y) || is_model_downloaded self Y disk.
Proof.
  intros Hf. unfold is_model_downloaded, mark_model_as_downloaded.
  destruct (decide (X = Y)) as [->|Hne].
  - rewrite (bool_decide_eq_true_2 (Y = Y)) by reflexivity. cbn [orb].
    apply bool_decide_eq_true. rewrite lookup_insert_eq. eauto.
  - rewrite (bool_decide_eq_false_2 (X = Y)) by exact Hne. cbn [orb].
    rewrite lookup_insert_ne; [reflexivity|].
    intros H. apply Hne. exact (model_path_inj self X Y Hf H).
Qed.

(** X3.  For models X and Y of [ALL_MODELS], marking X as downloaded
    makes X downloaded and changes the answer for no other model:
    [is_model_downloaded] Y afterwards is true exactly if Y is X or Y
    was downloaded before.  So a model once marked stays marked under
    every later marking; marking twice is marking once, and the order of
    two markings does not matter. *)
Theorem marking_changes_one_answer (self : ModelManager) (X Y : string)
    (disk : files) :
  cache_folder self = "models" -> X ∈ ALL_MODELS -> Y ∈ ALL_MODELS ->
  is_model_downloaded self Y (mark_model_as_downloaded self X disk)
    = bool_decide (X = Y) || is_model_downloaded self Y disk /\
  mark_model_as_downloaded self X (mark_model_as_downloaded self X disk)
    = mark_model_as_downloaded self X disk /\
  mark_model_as_downloaded self X (mark_model_as_downloaded self Y disk)
    = mark_model_as_downloaded self Y (mark_model_as_downloaded self X disk).
Proof.
  intros Hf _ _. split; [exact (marked_answer self X Y disk Hf)|].
  unfold mark_model_as_downloaded. split.
  - apply insert_insert_eq.
  - destruct (decide (X = Y)) as [->|Hne]; [reflexivity|].
    apply insert_insert_ne. intros H. apply Hne.
    exact (model_path_inj self X Y Hf H).
Qed.

Lemma marking_changes_one_answer_witness :
  is_model_downloaded init "base"
    (mark_model_as_downloaded init "tiny" {["models/base.model" := "downloaded"]})
  = true.
Proof.
  assert (HX : "tiny" ∈ ALL_MODELS)
    by (apply (bool_decide_unpack _); vm_compute; exact I).
  assert (HY : "base" ∈ ALL_MODELS)
    by (apply (bool_decide_unpack _); vm_compute; exact I).
  rewrite (proj1 (marking_changes_one_answer init "tiny" "base" _ eq_refl
                    HX HY)).
  vm_compute. reflexivity.
Defined.

End MarkerFacts.

(** ** The recommendation, further *)

Section RecommendMore.

Import Recommend.

(** Rounding to the nearest, ties to even, against an even bound: the
    bound is reached from half a unit below it on. *)
Lemma round_half_even_ge (n T : Z) :
  Z.even T = true ->
  (T <=? round_half_even n (2 ^ 30))%Z = ((2 * T - 1) * 2 ^ 30 <=? 2 * n)%Z.
Proof.
  intros HT. apply Z.even_spec in HT as [k ->].
  unfold round_half_even. change (2 ^ 30)%Z with 1073741824%Z.
  pose proof (Z.div_mod n 1073741824 ltac:(lia)) as Hn.
  pose proof (Z.mod_pos_bound n 1073741824 ltac:(lia)) as Hr.
  set (q := (n / 1073741824)%Z) in *. set (r := (n mod 1073741824)%Z) in *.
  destruct (Z.ltb_spec (2 * r) 1073741824) as [H1|H1].
  - destruct (Z.leb_spec (2 * k) q), (Z.leb_spec ((2 * (2 * k) - 1) * 1073741824) (2 * n));
      try reflexivity; lia.
  - destruct (Z.ltb_spec 1073741824 (2 * r)) as [H2|H2].
    + destruct (Z.leb_spec (2 * k) (q + 1)),
               (Z.leb_spec ((2 * (2 * k) - 1) * 1073741824) (2 * n));
        try reflexivity; lia.
    + destruct (Z.even q) eqn:Hq.
      * apply Z.even_spec in Hq as [j Hq].
        destruct (Z.leb_spec (2 * k) q),
                 (Z.leb_spec ((2 * (2 * k) - 1) * 1073741824) (2 * n));
          try reflexivity; lia.
      * destruct (Z.leb_spec (2 * k) (q + 1)),
                 (Z.leb_spec ((2 * (2 * k) - 1) * 1073741824) (2 * n));
          try reflexivity; lia.
Qed.

(** [round(total_memory / 1024**3, 2) >= T] for the bounds of the code. *)
Lemma vram_at_least (mem T : Z) :
  Z.even T = true ->
  Qle_bool (inject_Z T) (round2 (inject_Z mem / GiB))
  = ((200 * T - 1) * 2 ^ 30 <=? 200 * mem)%Z.
Proof.
  intros HT. unfold Qle_bool, round2, GiB, Qdiv, Qinv, Qmult, inject_Z.
  cbn [Qnum Qden].
  change (1024 ^ 3)%Z with (Z.pos 1073741824).
  cbn [Qnum Qden].
  change (Z.pos (1 * 1073741824)) with (2 ^ 30)%Z.
  replace (T * 100)%Z with (100 * T)%Z by lia.
  replace (mem * 1 * 100)%Z with (100 * mem)%Z by lia.
  rewrite Z.mul_1_r, round_half_even_ge.
  - f_equal; lia.
  - rewrite Z.even_mul. reflexivity.
Qed.

(** X4.  With a GPU the comparison is made on the rounded number of GB, so
    the cuts lie half a hundredth below the bounds of the code: a card
    gets large from 7.995 GiB of video memory on, medium from 5.995 GiB,
    small from 3.995 GiB, and base below. *)
Theorem gpu_cuts_in_bytes (p : probes) (c : option Z) (total mem : Z)
    (name : string) :
  cpu_count p = Return c ->
  ram_total p = Return total ->
  cuda_is_available p = Return true ->
  cuda_device_name p = Return name ->
  cuda_total_memory p = Return mem ->
  exists specs,
    check_recommended_model p
    = Return (if (1599 * 2 ^ 30 <=? 200 * mem)%Z then "large"
              else if (1199 * 2 ^ 30 <=? 200 * mem)%Z then "medium"
              else if (799 * 2 ^ 30 <=? 200 * mem)%Z then "small"
              else "base",
              specs).
Proof.
  intros Hc Ht Ha Hn Hm. unfold check_recommended_model, guarded.
  rewrite Hc, Ht, Ha, Hn, Hm. cbn [mbind outcome_bind mret outcome_ret].
  change 8%Q with (inject_Z 8). change 6%Q with (inject_Z 6).
  change 4%Q with (inject_Z 4).
  rewrite !vram_at_least by reflexivity.
  eexists. reflexivity.
Qed.

Lemma gpu_cuts_in_bytes_witness :
  let p := {| cpu_count := Return (Some 8%Z);
              ram_total := Return (32 * 1024 ^ 3)%Z;
              cuda_is_available := Return true;
              cuda_device_name := Return "RTX";
              cuda_total_memory := Return 8584640103%Z;
              ram_available := Return (20 * 1024 ^ 3)%Z |} in
  (8584640103 < 8 * 1024 ^ 3)%Z /\
  exists specs, check_recommended_model p = Return ("large", specs).
Proof.
  cbv zeta. split; [reflexivity|].
  exact (gpu_cuts_in_bytes
           {| cpu_count := Return (Some 8%Z);
              ram_total := Return (32 * 1024 ^ 3)%Z;
              cuda_is_available := Return true;
              cuda_device_name := Return "RTX";
              cuda_total_memory := Return 8584640103%Z;
              ram_available := Return (20 * 1024 ^ 3)%Z |}
           (Some 8%Z) (32 * 1024 ^ 3)%Z 8584640103%Z "RTX"
           eq_refl eq_refl eq_refl eq_refl eq_refl).
Defined.

(** X5.  Whatever the probes answer, a recommendation that is returned is one
    of the five models, and without a usable GPU it is never medium or
    large. *)
Theorem recommendation_is_a_model (p : probes) (recommended : string)
    (specs : Specs) :
  check_recommended_model p = Return (recommended, specs) ->
  recommended ∈ ModelCache.ALL_MODELS /\
  (cuda_is_available p <> Return true ->
   recommended ∈ ["small"; "base"; "tiny"]).
Proof.
  unfold check_recommended_model, guarded, ModelCache.ALL_MODELS.
  destruct (cpu_count p) as [c|e]; [|discriminate].
  destruct (ram_total p) as [total|e]; [|discriminate].
  cbn [mbind outcome_bind mret outcome_ret].
  destruct (cuda_is_available p) as [[|]|e].
  - destruct (cuda_device_name p) as [name|e];
      [destruct (cuda_total_memory p) as [mem|e]|];
      intros [= <- _]; (split; [|intros H; contradiction]);
      repeat match goal with
             | |- context [Qle_bool ?a ?b] => destruct (Qle_bool a b)
             end;
      set_solver.
  - destruct (ram_available p) as [available|e]; intros [= <- _];
      repeat match goal with
             | |- context [Qle_bool ?a ?b] => destruct (Qle_bool a b)
             end;
      set_solver.
  - intros [= <- _]. set_solver.
Qed.

Lemma recommendation_is_a_model_witness :
  "small" ∈ ModelCache.ALL_MODELS /\ "small" ∈ ["small"; "base"; "tiny"].
Proof.
  destruct (recommendation_is_a_model laptop "small"
              {| cpu := Some 4%Z; ram := 1600 # 100; gpu := None; vram := None |})
    as [H1 H2]; [vm_compute; reflexivity|].
  split; [exact H1|]. apply H2. discriminate.
Defined.

End RecommendMore.

(** ** The worker threads, further *)

Section JobsMore.

Import ModelCache Jobs.

Lemma observable_snd (r : running) (o : list event * ModelManager) :
  observable r = o -> model_manager r = o.2.
Proof. intros <-. reflexivity. Qed.

Lemma run_manager (env : Env) (sched : list move) (t : TranscriptionThread)
    (m : ModelManager) :
  model_manager (transcription_run env sched t m)
  = (run_reading (_is_interrupted t || interrupted_before_check sched)
                 env t m).2.
Proof. apply observable_snd, run_as_function. Qed.

Lemma run_reading_manager (flag : bool) (env : Env) (t : TranscriptionThread)
    (m : ModelManager) :
  (run_reading flag env t m).2
  = (load_model env m (model_name t) (Some forward)).2.
Proof.
  unfold run_reading.
  destruct (load_model env m (model_name t) (Some forward))
    as [[t1 [model|e]] m1]; [|reflexivity].
  destruct flag; [reflexivity|].
  destruct (cuda_is_available env) as [fp16|e]; [|reflexivity].
  destruct (transcribe env model (file_path t) fp16); reflexivity.
Qed.

Lemma download_run_manager (env : Env)
    (d : DownloaderThread.t) (m : ModelManager) :
  (DownloaderThread.run env d m).2
  = (load_model env m (DownloaderThread.model_name d) (Some forward)).2.
Proof.
  unfold DownloaderThread.run.
  destruct (load_model env m (DownloaderThread.model_name d) (Some forward))
    as [[t1 [model|e]] m1]; reflexivity.
Qed.

(** X6.  The two workers change the model cache by their one call of
    [load_model] and by nothing else: under every interleaving with
    [interrupt()], the manager left by a transcription is the manager
    left by that call, so a transcription that is interrupted or fails
    keeps the model it has loaded; and likewise for a download. *)
Theorem workers_change_cache_by_load_only (env : Env) :
  (forall (sched : list move) (t : TranscriptionThread) (m : ModelManager),
      model_manager (transcription_run env sched t m)
      = (load_model env m (model_name t) (Some forward)).2) /\
  (forall (d : DownloaderThread.t) (m : ModelManager),
      (DownloaderThread.run env d m).2
      = (load_model env m (DownloaderThread.model_name d) (Some forward)).2).
Proof.
  split.
  - intros sched t m. rewrite run_manager. apply run_reading_manager.
  - intros d m. apply download_run_manager.
Qed.

Lemma no_recognizer_calls (t : list event) :
  no_recognizer_call t = true -> recognizer_calls t = [].
Proof.
  unfold no_recognizer_call, recognizer_calls.
  induction t as [|e t IH]; [reflexivity|].
  cbn [forallb List.filter]. intros H. apply andb_true_iff in H as [He Ht].
  destruct (is_recognizer_call e); [discriminate He|]. exact (IH Ht).
Qed.

Lemma recognizer_calls_app (a b : list event) :
  recognizer_calls (a ++ b) = recognizer_calls a ++ recognizer_calls b.
Proof. apply List.filter_app. Qed.

(** X7.  Under every interleaving with [interrupt()], a run calls the
    recognizer at most once; when it does, it is on the file of the
    thread, with [fp16] as [torch.cuda.is_available()] answers, and on the
    model that the manager holds under the name of the thread when the run
    is over. *)
Theorem recognizer_called_at_most_once (env : Env) (sched : list move)
    (t : TranscriptionThread) (m : ModelManager) :
  let r := transcription_run env sched t m in
  recognizer_calls (trace r) = [] \/
  exists model fp16,
    recognizer_calls (trace r) = [ModelTranscribe model (file_path t) fp16] /\
    loaded_model (model_manager r) = Some model /\
    current_model_name (model_manager r) = Some (model_name t) /\
    cuda_is_available env = Return fp16.
Proof.
  cbv zeta. rewrite run_trace, run_manager.
  generalize (_is_interrupted t || interrupted_before_check sched).
  intros flag. unfold run_reading.
  destruct (load_model env m (model_name t) (Some forward))
    as [[t1 res] m1] eqn:E.
  destruct (load_model_trace env _ _ _ _ _ E) as [Hno _].
  apply no_recognizer_calls in Hno.
  destruct res as [model|e].
  - destruct (load_model_returns _ _ _ _ _ _ _ E) as (Hl & Hn & _).
    destruct flag.
    + left. cbn [fst]. rewrite !recognizer_calls_app, Hno. reflexivity.
    + destruct (cuda_is_available env) as [fp16|e].
      * right. exists model, fp16.
        destruct (transcribe env model (file_path t) fp16) as [result|e];
          cbn [fst snd]; rewrite !recognizer_calls_app, Hno; repeat split;
          assumption.
      * left. cbn [fst]. rewrite !recognizer_calls_app, Hno. reflexivity.
  - left. cbn [fst]. rewrite !recognizer_calls_app, Hno. reflexivity.
Qed.

Lemma last_snoc_signal (l : list signal) (x : signal) :
  last (l ++ [x]) = Some x.
Proof. apply last_snoc. Qed.

(** X8.  A transcription with the model that a download has just fetched
    loads no weights: it finds the model in the cache, reports 0 and 100
    at once and leaves the manager as the download left it. *)
Theorem transcription_after_download_reuses_model (env1 env2 : Env)
    (sched : list move) (X path : string) (m : ModelManager) :
  let d := DownloaderThread.run env1 (DownloaderThread.__init__ X) m in
  last (signals d.1) = Some (downloadFinished true "") ->
  let r := transcription_run env2 sched (new_transcription X path) d.2 in
  weight_loads (trace r) = [] /\
  model_manager r = d.2 /\
  exists rest,
    signals (trace r) = progressUpdated 0 :: progressUpdated 100 :: rest.
Proof.
  cbv zeta. unfold DownloaderThread.run.
  cbn [DownloaderThread.model_name DownloaderThread.__init__].
  destruct (load_model env1 m X (Some forward)) as [[t1 res] m1] eqn:E.
  destruct res as [model|e]; cbn [fst snd].
  - intros _.
    destruct (load_model_returns _ _ _ _ _ _ _ E) as (Hl & Hn & _).
    pose proof (load_model_hit env2 m1 X (Some forward) model Hl Hn) as Hhit.
    rewrite run_trace, run_manager.
    generalize (_is_interrupted (new_transcription X path)
                || interrupted_before_check sched).
    intros flag. unfold run_reading.
    cbn [model_name file_path new_transcription]. rewrite Hhit.
    destruct flag; [|destruct (cuda_is_available env2) as [fp16|e];
                      [destruct (transcribe env2 model path fp16)|]];
      cbn [fst snd]; (split; [reflexivity|]); (split; [reflexivity|]);
      eexists; reflexivity.
  - rewrite !signals_app.
    change (signals [Emit (downloadFinished false (str e))])
      with [downloadFinished false (str e)].
    rewrite app_assoc, last_snoc_signal. intros H. discriminate H.
Qed.

Lemma transcription_after_download_reuses_model_witness :
  let d := DownloaderThread.run (healthy 1) (DownloaderThread.__init__ "base")
             init in
  let r := transcription_run offline [] (new_transcription "base" "talk.wav")
             d.2 in
  last (signals (trace r)) = Some (transcriptionFinished "ciao") /\
  weight_loads (trace r) = [].
Proof.
  cbv zeta. split; [vm_compute; reflexivity|].
  exact (proj1 (transcription_after_download_reuses_model
                  (healthy 1) offline [] "base" "talk.wav" init eq_refl)).
Defined.

(** X9.  A transcription that is not interrupted in time, whose model loads
    and whose recognizer returns, reports 100, 50 and 100 after the
    progress of the load and ends with [transcriptionFinished] of the
    text under the key "text" of the result, or of the empty text when
    the result has no such key. *)
Theorem transcription_result_text (env : Env) (sched : list move)
    (name path : string) (m m1 : ModelManager) (t1 : list event)
    (model : Model) (fp16 : bool) (result : gmap string string) :
  interrupted_before_check sched = false ->
  load_model env m name (Some forward) = (t1, Return model, m1) ->
  cuda_is_available env = Return fp16 ->
  transcribe env model path fp16 = Return result ->
  signals (trace (transcription_run env sched (new_transcription name path) m))
  = progressUpdated 0 :: signals t1
    ++ [progressUpdated 100; progressUpdated 50; progressUpdated 100;
        transcriptionFinished
          match result !! "text" with Some text => text | None => "" end].
Proof.
  intros Hb El Ec Et. rewrite run_trace, Hb. unfold run_reading.
  cbn [orb _is_interrupted model_name file_path new_transcription].
  rewrite El, Ec, Et. cbn [fst]. rewrite !signals_app, <- ?app_assoc.
  destruct (result !! "text"); reflexivity.
Qed.

Lemma transcription_result_text_witness :
  let silent := {| cuda_is_available := Return true;
                   whisper_load_model := fun _ _ => Return 7%nat;
                   transcribe := fun _ _ _ => Return ∅ |} in
  signals (trace (transcription_run silent [Step; Step; Step; Step; Interrupt]
                    (new_transcription "tiny" "talk.wav") init))
  = [progressUpdated 0; progressUpdated 0; progressUpdated 100;
     progressUpdated 100; progressUpdated 50; progressUpdated 100;
     transcriptionFinished ""].
Proof.
  cbv zeta.
  exact (transcription_result_text
           {| cuda_is_available := Return true;
              whisper_load_model := fun _ _ => Return 7%nat;
              transcribe := fun _ _ _ => Return ∅ |}
           [Step; Step; Step; Step; Interrupt]
           "tiny" "talk.wav" init _ _ _ true ∅
           eq_refl eq_refl eq_refl eq_refl).
Defined.

(** X10.  The failures of a transcription that is not interrupted in time:
    an exception of the model load, of [torch.cuda.is_available()] at
    line 190 or of the recognizer ends the run with [errorOccurred] of
    its text.  After a failed load nothing else is reported; after the
    two others the last progress reported is 50. *)
Theorem transcription_failure_reports_error (env : Env) (sched : list move)
    (name path : string) (m : ModelManager) (e : exn) :
  interrupted_before_check sched = false ->
  let r := transcription_run env sched (new_transcription name path) m in
  (forall t1 m1,
      load_model env m name (Some forward) = (t1, Raise e, m1) ->
      signals (trace r)
      = [progressUpdated 0; progressUpdated 0; errorOccurred (str e)] /\
      model_manager r = m) /\
  (forall t1 m1 model,
      load_model env m name (Some forward) = (t1, Return model, m1) ->
      cuda_is_available env = Raise e \/
      (exists fp16, cuda_is_available env = Return fp16 /\
                    transcribe env model path fp16 = Raise e) ->
      signals (trace r)
      = progressUpdated 0 :: signals t1
        ++ [progressUpdated 100; progressUpdated 50; errorOccurred (str e)]).
Proof.
  intros Hb. cbv zeta. rewrite run_trace, run_manager, Hb. unfold run_reading.
  cbn [orb _is_interrupted model_name file_path new_transcription].
  split.
  - intros t1 m1 El. rewrite El. cbn [fst snd].
    destruct (load_model_trace env _ _ _ _ _ El) as [_ Hsig].
    rewrite !signals_app, Hsig.
    split; [reflexivity|]. exact (load_model_raises _ _ _ _ _ _ _ El).
  - intros t1 m1 model El [Ec | (fp16 & Ec & Et)]; rewrite El, Ec.
    + cbn [fst]. rewrite !signals_app, <- ?app_assoc. reflexivity.
    + rewrite Et. cbn [fst]. rewrite !signals_app, <- ?app_assoc. reflexivity.
Qed.

Lemma transcription_failure_reports_error_witness :
  let deaf := {| cuda_is_available := Return false;
                 whisper_load_model := fun _ _ => Return 3%nat;
                 transcribe := fun _ _ _ => Raise (Exception "no audio") |} in
  signals (trace (transcription_run offline [] (new_transcription "base" "a.wav")
                    init))
  = [progressUpdated 0; progressUpdated 0; errorOccurred "download failed"] /\
  signals (trace (transcription_run deaf [] (new_transcription "base" "a.wav")
                    init))
  = [progressUpdated 0; progressUpdated 0; progressUpdated 100;
     progressUpdated 100; progressUpdated 50; errorOccurred "no audio"].
Proof.
  cbv zeta. split.
  - destruct (transcription_failure_reports_error offline [] "base" "a.wav"
                init (Exception "download failed") eq_refl)
      as [Hload _].
    exact (proj1 (Hload _ _ eq_refl)).
  - destruct (transcription_failure_reports_error
                {| cuda_is_available := Return false;
                   whisper_load_model := fun _ _ => Return 3%nat;
                   transcribe := fun _ _ _ => Raise (Exception "no audio") |}
                [] "base" "a.wav" init (Exception "no audio") eq_refl)
      as [_ Hlater].
    refine (Hlater _ _ _ eq_refl _). right. exists false. split; reflexivity.
Defined.

End JobsMore.

(** ** The window, further *)

Section GuiMore.

Import ModelCache Gui.

Lemma currentText_in (c : QComboBox) : currentText c ∈ "" :: items c.
Proof.
  unfold currentText.
  destruct (currentIndex c <? 0)%Z; [apply elem_of_cons; left; reflexivity|].
  destruct (items c !! Z.to_nat (currentIndex c)) as [x|] eqn:E; cbn.
  - apply elem_of_cons. right. exact (list_elem_of_lookup_2 _ _ _ E).
  - apply elem_of_cons. left. reflexivity.
Qed.

Lemma currentText_model (c : QComboBox) :
  items c ⊆ ALL_MODELS -> currentText c ∈ "" :: ALL_MODELS.
Proof.
  intros H. pose proof (currentText_in c) as Hin.
  apply elem_of_cons in Hin as [Hin|Hin]; apply elem_of_cons;
    [left; exact Hin | right; exact (H _ Hin)].
Qed.

Lemma filter_models (P : string -> Prop) (dec : forall x, Decision (P x)) :
  filter P ALL_MODELS ⊆ ALL_MODELS.
Proof. intros x Hx. apply list_elem_of_filter in Hx as [_ Hx]. exact Hx. Qed.

Lemma addItems_clear_items (l : list string) (c : QComboBox) :
  items (addItems l (clear c)) = l.
Proof. reflexivity. Qed.

Lemma setup_model_lists_sound (p : Recommend.probes) (a : App) :
  sound (window a) -> sound (window (setup_model_lists p a).2).
Proof.
  intros Hs. unfold setup_model_lists.
  destruct (Recommend.check_recommended_model p) as [[recommended specs]|e];
    [|exact Hs].
  destruct Hs as (Hf & Ht & Hd & _ & _).
  unfold sound. cbn [snd window on_window with_lists file_path
                     transcription_thread downloader_thread combo_available
                     combo_downloaded].
  split; [exact Hf|]. split; [exact Ht|]. split; [exact Hd|]. split.
  - rewrite addItems_clear_items. apply filter_models.
  - destruct (decide _) as [_|_];
      [destruct (findText _ _ =? -1)%Z|];
      cbn [setCurrentIndex items]; rewrite addItems_clear_items;
      apply filter_models.
Qed.

Lemma on_download_finished_sound (p : Recommend.probes) (success : bool)
    (error : string) (a : App) :
  sound (window a) -> sound (window (on_download_finished p success error a).2).
Proof.
  intros Hs. unfold on_download_finished.
  match goal with
  | |- context [setup_model_lists p ?b] =>
      assert (Hb : sound (window b)) by (destruct success; exact Hs);
      pose proof (setup_model_lists_sound p b Hb) as Hs';
      destruct (setup_model_lists p b) as [[[]|e] a']
  end; exact Hs'.
Qed.

Lemma choose_file_sound (which : string -> option string)
    (subprocess_run : list string -> Z) (chosen : string) (w : MainWindow) :
  sound w -> sound (choose_file which subprocess_run chosen w).2.
Proof.
  intros Hs. unfold choose_file.
  destruct (String.eqb chosen ""); [exact Hs|].
  destruct (Normalizer.convert_file_if_needed which subprocess_run chosen)
    as [[path|]|[msg|msg]] eqn:E; try exact Hs.
  destruct (String.eqb_spec path "") as [->|Hne]; [exact Hs|].
  destruct Hs as (_ & Hrest). split; [|exact Hrest].
  split; [exact Hne|].
  exact (convert_result_is_audio _ _ _ _ E).
Qed.

Lemma perform_sound (p : Recommend.probes) (a : App) (act : action) :
  sound (window a) -> sound (window (perform p a act)).
Proof.
  intros Hs. destruct act; cbn [perform on_window window].
  - apply choose_file_sound, Hs.
  - unfold download_model.
    destruct (count (combo_available (window a)) =? 0)%Z; [exact Hs|].
    destruct Hs as (Hf & Ht & _ & Ha & Hd).
    split; [exact Hf|]. split; [exact Ht|]. split; [|split; assumption].
    apply currentText_model, Ha.
  - unfold start_transcription.
    destruct (file_path (window a)) as [path|] eqn:Efile; [|exact Hs].
    destruct (String.eqb path ""); [exact Hs|].
    destruct (count (combo_downloaded (window a)) =? 0)%Z; [exact Hs|].
    destruct Hs as (Hf & _ & Hd & Ha & Hdown).
    rewrite Efile in Hf.
    split; [cbn; rewrite Efile; exact Hf|].
    split; [|split; [exact Hd|split; assumption]].
    split; [exact (proj2 Hf)|]. apply currentText_model, Hdown.
  - unfold cancel_transcription.
    destruct (transcription_thread (window a)) as [h|] eqn:Et; [|exact Hs].
    destruct (isRunning h); [|exact Hs].
    destruct Hs as (Hf & Ht & Hrest). rewrite Et in Ht.
    split; [exact Hf|]. split; [exact Ht|exact Hrest].
  - exact Hs.
  - exact Hs.
  - destruct a0 as [now|now value|now value]; cbn [dispatch].
    + unfold check_progress_stuck. destruct (Qgtb _ 20); exact Hs.
    + exact Hs.
    + exact Hs.
  - apply on_download_finished_sound, Hs.
  - exact Hs.
  - exact Hs.
Qed.

(** X11.  Whatever the user and the workers make the window do after it is
    created, in whatever order: the selected file, if there is one, is a
    non-empty path with an audio extension; so is the file of the
    transcription thread the window holds; and the model a thread is
    created for is an entry of [ALL_MODELS], or the empty text of a combo
    box without current entry. *)
Theorem window_stays_sound (p : Recommend.probes) (now : Q) (d : files)
    (acts : list action) :
  sound (window (fold_left (perform p) acts (new_window p now d).2)).
Proof.
  assert (H0 : sound (window (new_window p now d).2)).
  { apply setup_model_lists_sound. repeat split; intros x Hx; inversion Hx. }
  revert H0. generalize ((new_window p now d).2).
  induction acts as [|act acts IH]; intros a Ha; [exact Ha|].
  cbn [fold_left]. apply IH, perform_sound, Ha.
Qed.

(** *** The lists of models *)

Lemma find_from_spec (text : string) (l : list string) (i : Z) :
  text ∈ l ->
  exists k, find_from text l i = (i + Z.of_nat k)%Z /\ l !! k = Some text.
Proof.
  revert i. induction l as [|x l IH]; intros i Hin;
    [apply elem_of_nil in Hin; contradiction|].
  cbn [find_from]. destruct (String.eqb_spec x text) as [->|Hne].
  - exists 0%nat. split; [lia|reflexivity].
  - apply elem_of_cons in Hin as [->|Hin]; [contradiction|].
    destruct (IH (i + 1)%Z Hin) as (k & Hk & Hl).
    exists (S k). split; [lia|exact Hl].
Qed.

Lemma currentText_found (text : string) (c : QComboBox) :
  text ∈ items c ->
  findText text c <> (-1)%Z /\
  currentText (setCurrentIndex (findText text c) c) = text.
Proof.
  intros Hin. unfold findText.
  destruct (find_from_spec text (items c) 0 Hin) as (k & -> & Hk).
  pose proof (lookup_lt_Some _ _ _ Hk) as Hlt.
  split; [lia|].
  unfold currentText, setCurrentIndex, count. cbn [currentIndex items].
  destruct (Z.leb_spec 0 (0 + Z.of_nat k)) as [_|?]; [|lia].
  destruct (Z.ltb_spec (0 + Z.of_nat k) (Z.of_nat (length (items c))))
    as [_|?]; [|lia].
  cbn [andb]. destruct (Z.ltb_spec (0 + Z.of_nat k) 0) as [?|_]; [lia|].
  replace (Z.to_nat (0 + Z.of_nat k)) with k by lia.
  rewrite Hk. reflexivity.
Qed.

(** X12.  When the probes answer, [setup_model_lists] sorts the five models
    by their marker files: a model is listed as downloaded exactly if
    its marker is on the disk, and as available exactly if it is not;
    the recommended model is the current entry of the downloaded ones
    when it is among them; disk and manager are left alone. *)
Theorem model_lists_follow_disk (p : Recommend.probes) (a : App)
    (recommended : string) (specs : Recommend.Specs) :
  Recommend.check_recommended_model p = Return (recommended, specs) ->
  let a' := (setup_model_lists p a).2 in
  (forall X, X ∈ items (combo_downloaded (window a')) <->
             X ∈ ALL_MODELS /\
             is_model_downloaded (manager a) X (disk a) = true) /\
  (forall X, X ∈ items (combo_available (window a')) <->
             X ∈ ALL_MODELS /\
             is_model_downloaded (manager a) X (disk a) = false) /\
  (recommended ∈ ALL_MODELS ->
   is_model_downloaded (manager a) recommended (disk a) = true ->
   currentText (combo_downloaded (window a')) = recommended) /\
  disk a' = disk a /\ manager a' = manager a.
Proof.
  intros Hp. cbv zeta. unfold setup_model_lists. rewrite Hp.
  cbn [snd window on_window with_lists combo_available combo_downloaded
       disk manager].
  split; [|split; [|split; [|split; reflexivity]]].
  - intros X.
    destruct (decide _) as [Hin|_];
      [destruct (findText _ _ =? -1)%Z|];
      cbn [setCurrentIndex items]; rewrite addItems_clear_items,
        list_elem_of_filter; tauto.
  - intros X. rewrite addItems_clear_items, list_elem_of_filter. tauto.
  - intros HX Hd.
    assert (Hin : recommended
                  ∈ filter (fun m => is_model_downloaded (manager a) m (disk a)
                                     = true) ALL_MODELS).
    { apply list_elem_of_filter. split; assumption. }
    destruct (decide _) as [_|Hn]; [|contradiction].
    set (down := addItems _ (clear (combo_downloaded (window a)))).
    assert (Hdown : recommended ∈ items down)
      by (unfold down; rewrite addItems_clear_items; exact Hin).
    destruct (currentText_found recommended down Hdown) as [Hne Hcur].
    destruct (Z.eqb_spec (findText recommended down) (-1)) as [E|_];
      [contradiction|exact Hcur].
Qed.

Lemma model_lists_follow_disk_witness :
  let a := (new_window Recommend.laptop 0
              {["models/small.model" := "downloaded";
                "models/tiny.model" := "downloaded"]}).2 in
  currentText (combo_downloaded (window a)) = "small" /\
  items (combo_available (window a)) = ["base"; "medium"; "large"].
Proof.
  cbv zeta. split; [|vm_compute; reflexivity].
  refine (proj1 (proj2 (proj2
            (model_lists_follow_disk Recommend.laptop _ "small" _ _))) _ _).
  - vm_compute. reflexivity.
  - apply (bool_decide_unpack _). vm_compute. exact I.
  - vm_compute. reflexivity.
Defined.

(** *** A download from the click to the end *)

Lemma deliver_progress (p : Recommend.probes) (now : Q) (ps : list Z)
    (rest : list signal) (a : App) :
  deliver p now ((progressUpdated <$> ps) ++ rest) a
  = deliver p now rest (on_window (progressed now ps) a).
Proof.
  revert a. induction ps as [|v ps IH]; intros a.
  - destruct a. reflexivity.
  - cbn [fmap list_fmap app deliver]. rewrite IH.
    destruct a. reflexivity.
Qed.

Lemma deliver_finished (p : Recommend.probes) (now : Q) (success : bool)
    (error : string) (a : App) :
  (deliver p now [downloadFinished success error] a).2
  = (on_download_finished p success error a).2.
Proof.
  cbn [deliver].
  destruct (on_download_finished p success error a) as [[[]|e] a'];
    reflexivity.
Qed.

Lemma progressed_keeps (now : Q) (ps : list Z) (w : MainWindow) :
  combo_available (progressed now ps w) = combo_available w /\
  text_output (progressed now ps w) = text_output w /\
  btn_download_enabled (progressed now ps w) = btn_download_enabled w.
Proof.
  unfold progressed. revert w.
  induction ps as [|v ps IH]; intros w; [repeat split|].
  cbn [fold_left].
  destruct (IH (on_download_progress now v w)) as (-> & -> & ->).
  repeat split.
Qed.

(** The signals of a download: progress, then the end. *)
Lemma download_signals (env : Env) (X : string) (m : ModelManager) :
  exists ps,
    Jobs.signals (Jobs.DownloaderThread.run env
                    (Jobs.DownloaderThread.__init__ X) m).1
    = (progressUpdated <$> ps)
      ++ [downloadFinished
            match (load_model env m X (Some Jobs.forward)).1.2 with
            | Return _ => true
            | Raise _ => false
            end
            match (load_model env m X (Some Jobs.forward)).1.2 with
            | Return _ => ""
            | Raise e => str e
            end].
Proof.
  unfold Jobs.DownloaderThread.run.
  cbn [Jobs.DownloaderThread.model_name Jobs.DownloaderThread.__init__].
  destruct (load_model env m X (Some Jobs.forward)) as [[t1 res] m1] eqn:E.
  destruct (load_model_trace env _ _ _ _ _ E) as [_ Hsig].
  destruct res as [model|e]; cbn [fst snd]; rewrite !signals_app.
  - destruct Hsig as [-> | ->].
    + exists [0%Z]. reflexivity.
    + exists [0%Z; 0%Z; 100%Z]. reflexivity.
  - rewrite Hsig. exists [0%Z; 0%Z]. reflexivity.
Qed.

(** The application at the end of a download session. *)
Lemma download_session_end (p : Recommend.probes) (env : Env) (now : Q)
    (meanwhile : MainWindow -> MainWindow) (a : App) :
  (count (combo_available (window a)) =? 0)%Z = false ->
  let X := currentText (combo_available (window a)) in
  let load := load_model env (manager a) X (Some Jobs.forward) in
  exists w,
    combo_available w = combo_available (meanwhile (window (download_model a))) /\
    btn_download_enabled w = false /\
    (download_session p env now meanwhile a).2
    = (on_download_finished p
         match load.1.2 with Return _ => true | Raise _ => false end
         match load.1.2 with Return _ => "" | Raise e => str e end
         {| window := w; manager := load.2; disk := disk a |}).2.
Proof.
  intros Hcount. cbv zeta. unfold download_session.
  assert (Hth : downloader_thread (window (download_model a))
                = Some {| thread := Jobs.DownloaderThread.__init__
                                      (currentText (combo_available (window a)));
                          isRunning := true |}).
  { unfold download_model. rewrite Hcount. reflexivity. }
  assert (Hdisk : disk (download_model a) = disk a /\
                  manager (download_model a) = manager a).
  { unfold download_model. rewrite Hcount. split; reflexivity. }
  destruct Hdisk as [Hdisk Hman].
  rewrite Hth. cbn [isRunning thread]. rewrite Hman, Hdisk.
  destruct (download_signals env
              (currentText (combo_available (window a))) (manager a))
    as [ps Hsig].
  pose proof (download_run_manager env
                (Jobs.DownloaderThread.__init__
                   (currentText (combo_available (window a)))) (manager a))
    as Hm.
  cbn [Jobs.DownloaderThread.model_name Jobs.DownloaderThread.__init__] in Hm.
  destruct (Jobs.DownloaderThread.run env _ (manager a)) as [t m] eqn:Erun.
  cbn [fst snd] in Hsig, Hm. rewrite Hsig, deliver_progress, deliver_finished.
  subst m.
  eexists. split; [|split; [|reflexivity]]; cbn [window on_window].
  - rewrite (proj1 (progressed_keeps now ps _)). reflexivity.
  - rewrite (proj2 (proj2 (progressed_keeps now ps _))).
    unfold download_model. rewrite Hcount. reflexivity.
Qed.

Lemma setup_model_lists_items (p : Recommend.probes) (a : App)
    (recommended : string) (specs : Recommend.Specs) :
  Recommend.check_recommended_model p = Return (recommended, specs) ->
  exists w,
    setup_model_lists p a
    = (Return tt, {| window := w; manager := manager a; disk := disk a |}) /\
    items (combo_downloaded w)
    = filter (fun m => is_model_downloaded (manager a) m (disk a) = true)
             ALL_MODELS /\
    items (combo_available w)
    = filter (fun m => is_model_downloaded (manager a) m (disk a) = false)
             ALL_MODELS /\
    btn_download_enabled w = btn_download_enabled (window a) /\
    text_output w = text_output (window a).
Proof.
  intros Hp. unfold setup_model_lists. rewrite Hp. eexists.
  split; [reflexivity|].
  cbn [with_lists combo_downloaded combo_available btn_download_enabled
       text_output].
  split; [|split; [apply addItems_clear_items|split; reflexivity]].
  destruct (decide _) as [_|_]; [destruct (findText _ _ =? -1)%Z|];
    cbn [setCurrentIndex items]; apply addItems_clear_items.
Qed.

Lemma load_model_folder (env : Env) (self : ModelManager) (X : string)
    (cb : option (Z -> list event)) :
  cache_folder (load_model env self X cb).2 = cache_folder self.
Proof.
  unfold load_model. destruct (cached self X); [reflexivity|].
  destruct (cuda_is_available env); [|reflexivity].
  destruct (whisper_load_model env X _); reflexivity.
Qed.

Lemma is_model_downloaded_folder (m m' : ModelManager) (X : string)
    (d : files) :
  cache_folder m' = cache_folder m ->
  is_model_downloaded m' X d = is_model_downloaded m X d.
Proof.
  intros H. unfold is_model_downloaded, model_path. rewrite H. reflexivity.
Qed.

Lemma passing_available (xs : list pastime) (w : MainWindow) :
  forallb leaves_available xs = true ->
  combo_available (passing xs w) = combo_available w.
Proof.
  unfold passing. revert w.
  induction xs as [|x xs IH]; intros w; [reflexivity|].
  cbn [forallb fold_left]. intros H.
  apply andb_true_iff in H as [Hx Hxs].
  rewrite (IH _ Hxs).
  destruct x as [i|i|t]; [discriminate Hx|reflexivity|].
  unfold pass, check_progress_stuck.
  destruct (Qgtb _ _); reflexivity.
Qed.

(** X13.  A download of a model X of [ALL_MODELS] that succeeds, with no
    transcription at work, while the user does no more than pick entries
    of [combo_downloaded] and wait: X, the model that was selected at
    the click, is marked as downloaded and the marker of no other model
    of [ALL_MODELS] changes, the model is loaded in the cache, the lists
    show X as downloaded and no longer as available, the button is
    enabled again and the progress bar is back at 0. *)
Theorem download_session_marks_selection (p : Recommend.probes) (env : Env)
    (now : Q) (xs : list pastime) (a : App)
    (recommended : string) (specs : Recommend.Specs) (model : Model) :
  cache_folder (manager a) = "models" ->
  Recommend.check_recommended_model p = Return (recommended, specs) ->
  (count (combo_available (window a)) =? 0)%Z = false ->
  forallb leaves_available xs = true ->
  no_transcription_running (window a) ->
  let X := currentText (combo_available (window a)) in
  X ∈ ALL_MODELS ->
  (load_model env (manager a) X (Some Jobs.forward)).1.2 = Return model ->
  let a' := (download_session p env now (passing xs) a).2 in
  (forall Y, Y ∈ ALL_MODELS ->
             is_model_downloaded (manager a') Y (disk a')
             = bool_decide (X = Y)
               || is_model_downloaded (manager a) Y (disk a)) /\
  loaded_model (manager a') = Some model /\
  (X ∈ items (combo_downloaded (window a'))) /\
  (X ∉ items (combo_available (window a'))) /\
  btn_download_enabled (window a') = true /\
  progress_bar (window a') = 0%Z.
Proof.
  intros Hf Hp Hcount Hxs _ X HX Hload a'. subst a'.
  destruct (download_session_end p env now (passing xs) a Hcount)
    as (w & Hw & _ & ->).
  fold X. rewrite Hload.
  assert (HwX : currentText (combo_available w) = X).
  { rewrite Hw, (passing_available xs _ Hxs).
    unfold download_model. rewrite Hcount. reflexivity. }
  set (m1 := (load_model env (manager a) X (Some Jobs.forward)).2).
  assert (Hf1 : cache_folder m1 = "models")
    by (unfold m1; rewrite load_model_folder; exact Hf).
  assert (Hl1 : loaded_model m1 = Some model).
  { unfold m1. destruct (load_model env (manager a) X (Some Jobs.forward))
      as [[t1 res] m2] eqn:E. cbn [fst snd] in Hload |- *. subst res.
    exact (proj1 (load_model_returns _ _ _ _ _ _ _ E)). }
  unfold on_download_finished.
  cbn [window on_window manager disk append showMessage combo_available].
  rewrite HwX.
  match goal with
  | |- context [setup_model_lists p ?b] =>
      destruct (setup_model_lists_items p b recommended specs Hp)
        as (w' & -> & Hdown & Havail & _ & _)
  end.
  cbn [snd window on_window manager disk with_download setValue with_progress
       btn_download_enabled progress_bar combo_downloaded combo_available]
    in *.
  assert (Hans : forall Y,
    is_model_downloaded m1 Y (mark_model_as_downloaded m1 X (disk a))
    = bool_decide (X = Y) || is_model_downloaded (manager a) Y (disk a)).
  { intros Y. rewrite (marked_answer m1 X Y (disk a) Hf1). f_equal.
    apply is_model_downloaded_folder. congruence. }
  split; [intros Y _; exact (Hans Y)|]. split; [exact Hl1|].
  rewrite Hdown, Havail, !list_elem_of_filter, !Hans.
  rewrite (bool_decide_eq_true_2 (X = X)) by reflexivity. cbn [orb].
  split; [split; [reflexivity|exact HX]|].
  split; [intros [H _]; discriminate H|]. split; reflexivity.
Qed.

Lemma download_session_marks_selection_witness :
  let a := (new_window Recommend.laptop 0 ∅).2 in
  let a' := (download_session Recommend.laptop (healthy 1) 1
               (passing [PickDownloaded 0; Wait 30]) a).2 in
  is_model_downloaded (manager a') "tiny" (disk a') = true /\
  "tiny" ∈ items (combo_downloaded (window a')) /\
  btn_download_enabled (window a') = true.
Proof.
  cbv zeta.
  assert (Hcount : (count (combo_available
                             (window (new_window Recommend.laptop 0 ∅).2))
                    =? 0)%Z = false) by (vm_compute; reflexivity).
  assert (Hload : (load_model (healthy 1)
                     (manager (new_window Recommend.laptop 0 ∅).2)
                     (currentText (combo_available
                        (window (new_window Recommend.laptop 0 ∅).2)))
                     (Some Jobs.forward)).1.2
                  = Return {| weights := "tiny"; device := "cpu"; ident := 1 |})
    by (vm_compute; reflexivity).
  assert (Hp : Recommend.check_recommended_model Recommend.laptop
               = Return ("small",
                         {| Recommend.cpu := Some 4%Z;
                            Recommend.ram := 1600 # 100;
                            Recommend.gpu := None; Recommend.vram := None |}))
    by (vm_compute; reflexivity).
  assert (Hidle : no_transcription_running
                    (window (new_window Recommend.laptop 0 ∅).2))
    by (vm_compute; exact I).
  assert (HX : currentText (combo_available
                 (window (new_window Recommend.laptop 0 ∅).2)) = "tiny")
    by (vm_compute; reflexivity).
  assert (Hin : "tiny" ∈ ALL_MODELS)
    by (apply (bool_decide_unpack _); vm_compute; exact I).
  assert (HinX : currentText (combo_available
                   (window (new_window Recommend.laptop 0 ∅).2)) ∈ ALL_MODELS)
    by (rewrite HX; exact Hin).
  destruct (download_session_marks_selection Recommend.laptop (healthy 1) 1
              [PickDownloaded 0; Wait 30]
              (new_window Recommend.laptop 0 ∅).2 _ _ _
              eq_refl Hp Hcount eq_refl Hidle HinX Hload)
    as (Hans & _ & Hdown & _ & Hbtn & _).
  rewrite HX in Hans, Hdown.
  split; [|split; [exact Hdown|exact Hbtn]].
  rewrite (Hans "tiny" Hin). reflexivity.
Defined.

(** X14.  A download that fails, with no transcription at work, whatever
    entries of the lists the user picks meanwhile: no marker is written
    and the cache keeps what it held, the output ends with the line of
    the failure and the text of the exception, the lists are those of
    the unchanged disk, the button is enabled again and the progress bar
    is back at 0. *)
Theorem failed_download_marks_nothing (p : Recommend.probes) (env : Env)
    (now : Q) (xs : list pastime) (a : App)
    (recommended : string) (specs : Recommend.Specs) (e : exn) :
  Recommend.check_recommended_model p = Return (recommended, specs) ->
  (count (combo_available (window a)) =? 0)%Z = false ->
  no_transcription_running (window a) ->
  let X := currentText (combo_available (window a)) in
  (load_model env (manager a) X (Some Jobs.forward)).1.2 = Raise e ->
  let a' := (download_session p env now (passing xs) a).2 in
  disk a' = disk a /\
  manager a' = manager a /\
  last (text_output (window a')) = Some ("Download fallito: " +:+ str e) /\
  (forall Y, Y ∈ items (combo_available (window a')) <->
             Y ∈ ALL_MODELS /\
             is_model_downloaded (manager a) Y (disk a) = false) /\
  btn_download_enabled (window a') = true /\
  progress_bar (window a') = 0%Z.
Proof.
  intros Hp Hcount _ X Hload a'. subst a'.
  destruct (download_session_end p env now (passing xs) a Hcount)
    as (w & _ & _ & ->).
  fold X. rewrite Hload.
  assert (Hm : (load_model env (manager a) X (Some Jobs.forward)).2 = manager a).
  { destruct (load_model env (manager a) X (Some Jobs.forward))
      as [[t1 res] m2] eqn:E. cbn [fst snd] in Hload |- *. subst res.
    exact (load_model_raises _ _ _ _ _ _ _ E). }
  rewrite Hm. unfold on_download_finished.
  match goal with
  | |- context [setup_model_lists p ?b] =>
      destruct (setup_model_lists_items p b recommended specs Hp)
        as (w' & -> & _ & Havail & _ & Htext)
  end.
  cbn [snd window on_window manager disk with_download setValue with_progress
       btn_download_enabled progress_bar combo_downloaded combo_available
       text_output append showMessage] in *.
  split; [reflexivity|]. split; [reflexivity|].
  split; [rewrite Htext; apply last_snoc|].
  split; [|split; reflexivity].
  intros Y. rewrite Havail, list_elem_of_filter. tauto.
Qed.

Lemma failed_download_marks_nothing_witness :
  let a := (new_window Recommend.laptop 0 ∅).2 in
  let a' := (download_session Recommend.laptop offline 1
               (passing [PickAvailable 3; Wait 30]) a).2 in
  disk a' = ∅ /\
  last (text_output (window a')) = Some "Download fallito: download failed".
Proof.
  cbv zeta.
  assert (Hcount : (count (combo_available
                             (window (new_window Recommend.laptop 0 ∅).2))
                    =? 0)%Z = false) by (vm_compute; reflexivity).
  assert (Hload : (load_model offline
                     (manager (new_window Recommend.laptop 0 ∅).2)
                     (currentText (combo_available
                        (window (new_window Recommend.laptop 0 ∅).2)))
                     (Some Jobs.forward)).1.2
                  = Raise (Exception "download failed"))
    by (vm_compute; reflexivity).
  assert (Hp : Recommend.check_recommended_model Recommend.laptop
               = Return ("small",
                         {| Recommend.cpu := Some 4%Z;
                            Recommend.ram := 1600 # 100;
                            Recommend.gpu := None; Recommend.vram := None |}))
    by (vm_compute; reflexivity).
  assert (Hidle : no_transcription_running
                    (window (new_window Recommend.laptop 0 ∅).2))
    by (vm_compute; exact I).
  destruct (failed_download_marks_nothing Recommend.laptop offline 1
              [PickAvailable 3; Wait 30] (new_window Recommend.laptop 0 ∅).2
              _ _ _ Hp Hcount Hidle Hload)
    as (Hdisk & _ & Hlast & _).
  split; [exact Hdisk | exact Hlast].
Defined.

(** X15.  A download whose refresh of the lists fails: when the hardware
    probes raise in [setup_model_lists], [on_download_finished] ends with
    that exception after the marker is written, so the download button,
    disabled at the click, is not enabled again and the list of available
    models is not refreshed. *)
Theorem failed_refresh_leaves_button_disabled (p : Recommend.probes)
    (env : Env) (now : Q) (meanwhile : MainWindow -> MainWindow) (a : App)
    (e : exn) :
  Recommend.check_recommended_model p = Raise e ->
  (count (combo_available (window a)) =? 0)%Z = false ->
  (forall w, combo_available (meanwhile w) = combo_available w) ->
  let a' := (download_session p env now meanwhile a).2 in
  let X := currentText (combo_available (window a)) in
  btn_download_enabled (window a') = false /\
  combo_available (window a') = combo_available (window a) /\
  (is_return (load_model env (manager a) X (Some Jobs.forward)).1.2 = true ->
   disk a' = mark_model_as_downloaded (manager a') X (disk a)).
Proof.
  intros Hp Hcount Hmean. cbv zeta.
  destruct (download_session_end p env now meanwhile a Hcount)
    as (w & Hw & Hbtn & ->).
  assert (HwX : combo_available w = combo_available (window a)).
  { rewrite Hw, Hmean. unfold download_model. rewrite Hcount. reflexivity. }
  unfold on_download_finished, setup_model_lists. rewrite Hp.
  destruct (load_model env (manager a) _ (Some Jobs.forward)).1.2
    as [model|e']; cbn [snd window on_window manager disk append showMessage
                        btn_download_enabled combo_available is_return].
  - split; [exact Hbtn|]. split; [exact HwX|]. intros _.
    rewrite HwX. reflexivity.
  - split; [exact Hbtn|]. split; [exact HwX|]. intros H. discriminate H.
Qed.

Lemma failed_refresh_leaves_button_disabled_witness :
  let broken := {| Recommend.cpu_count := Return None;
                   Recommend.ram_total := Raise (Exception "psutil");
                   Recommend.cuda_is_available := Return false;
                   Recommend.cuda_device_name := Return "";
                   Recommend.cuda_total_memory := Return 0%Z;
                   Recommend.ram_available := Return 0%Z |} in
  let a := (new_window Recommend.laptop 0 ∅).2 in
  let a' := (download_session broken (healthy 1) 1 (fun w => w) a).2 in
  btn_download_enabled (window a') = false /\
  is_model_downloaded (manager a') "tiny" (disk a') = true.
Proof.
  cbv zeta.
  assert (Hcount : (count (combo_available
                             (window (new_window Recommend.laptop 0 ∅).2))
                    =? 0)%Z = false) by (vm_compute; reflexivity).
  destruct (failed_refresh_leaves_button_disabled
              {| Recommend.cpu_count := Return None;
                 Recommend.ram_total := Raise (Exception "psutil");
                 Recommend.cuda_is_available := Return false;
                 Recommend.cuda_device_name := Return "";
                 Recommend.cuda_total_memory := Return 0%Z;
                 Recommend.ram_available := Return 0%Z |}
              (healthy 1) 1 (fun w => w) (new_window Recommend.laptop 0 ∅).2
              (Exception "psutil") eq_refl Hcount (fun w => eq_refl))
    as (Hbtn & _ & _).
  split; [exact Hbtn|]. vm_compute. reflexivity.
Defined.

(** *** The monitor after a progress signal *)

Lemma not_stuck_msg (s : string) :
  ("Download in corso: " +:+ s <> stuck_msg) /\
  ("Trascrizione in corso: " +:+ s <> stuck_msg).
Proof. split; intros H; discriminate H. Qed.

Lemma advisories_showMessage_other (msg : string) (w : MainWindow) :
  msg <> stuck_msg -> advisories (showMessage msg w) = advisories w.
Proof.
  intros Hne. unfold advisories. cbn [status_bar showMessage].
  rewrite filter_app, length_app, filter_cons_False by exact Hne.
  rewrite filter_nil. cbn [length]. lia.
Qed.

Lemma ticks_within (w : MainWindow) (times : list Q) :
  Forall (fun now => (now - last_progress_update w <= 20)%Q) times ->
  advisories (ticks w times) = advisories w /\
  last_progress_update (ticks w times) = last_progress_update w.
Proof.
  unfold ticks. revert w. induction times as [|now rest IH]; intros w Hall;
    [split; reflexivity|].
  apply Forall_cons in Hall as [Hnow Hrest].
  cbn [fmap list_fmap fold_left dispatch].
  assert (Hw : check_progress_stuck now w = w).
  { unfold check_progress_stuck, Qgtb.
    apply Qle_bool_iff in Hnow. rewrite Hnow. reflexivity. }
  rewrite Hw. apply IH, Hrest.
Qed.

(** X16.  A progress signal of either worker, received at time [t], silences
    the monitor for the next 20 seconds whatever came before: the
    timeouts up to [t + 20] show no advisory. *)
Theorem progress_silences_monitor (w : MainWindow) (t : Q) (value : Z)
    (times : list Q) :
  Forall (fun now => (now - t <= 20)%Q) times ->
  advisories (ticks (dispatch w (DownloadProgress t value)) times)
    = advisories w /\
  advisories (ticks (dispatch w (TranscriptionProgress t value)) times)
    = advisories w.
Proof.
  intros Hall. split.
  - destruct (ticks_within (dispatch w (DownloadProgress t value)) times Hall)
      as [-> _].
    cbn [dispatch]. unfold on_download_progress.
    rewrite advisories_showMessage_other by apply not_stuck_msg.
    reflexivity.
  - destruct (ticks_within (dispatch w (TranscriptionProgress t value)) times
                Hall) as [-> _].
    cbn [dispatch]. unfold on_transcription_progress.
    rewrite advisories_showMessage_other by apply not_stuck_msg.
    reflexivity.
Qed.

Lemma progress_silences_monitor_witness :
  let w := window (new_window Recommend.laptop 0 ∅).2 in
  let late := ticks w (every_second 0 30) in
  advisories late = 10%nat /\
  advisories (ticks (dispatch late (TranscriptionProgress 30 50))
                    (every_second 30 20))
  = 10%nat.
Proof.
  cbv zeta. split; [vm_compute; reflexivity|].
  etransitivity;
    [apply (progress_silences_monitor _ 30 50 (every_second 30 20))|
     vm_compute; reflexivity].
  apply Forall_forall. intros now Hin.
  unfold every_second in Hin. apply list_elem_of_fmap in Hin as (k & -> & Hk).
  apply elem_of_seq in Hk.
  unfold Qle, Qminus, Qplus, Qopp, inject_Z. cbn [Qnum Qden]. lia.
Defined.

End GuiMore.
